(** * Sparkify data lake ETL (etl.py): relational model and properties

    The pipeline of [etl.py] reads two directories of JSON records (song
    metadata and listening events), evaluates a handful of Spark SQL
    queries over temporary views of the session, and writes five tables
    in overwrite mode.  This development embeds the transforms as
    executable functions:

    - a JSON column is an [option]: [None] is SQL NULL (absent field);
    - a DataFrame is the list of its rows, in the order in which the
      queries below enumerate them; Spark fixes no row order, so that
      order carries no meaning of its own;
    - the session's temporary views and the written tables are finite
      maps ([gmap]) keyed by view name and by path;
    - calls that can fail (a missing view, a column that cannot be
      resolved, the Python UDF raising) run in a small state-and-error
      monad. *)

From Stdlib Require Import ZArith Lia Ascii String.
From Stdlib Require Floats.SpecFloat.
From stdpp Require Import base decidable option list strings gmap.

#[local] Open Scope Z_scope.

(** ** SQL values and three-valued logic *)

(** A double column travels through the transforms untouched and is only
    ever compared for equality (by DISTINCT); it is carried by the integer
    that encodes its 64 bits. *)
Definition double : Type := Z.

(** A TimestampType value: microseconds since the epoch. *)
Definition timestamp : Type := Z.

(** [a = b] in SQL: NULL as soon as one side is NULL. *)
Definition sql_eq {A} `{EqDecision A} (x y : option A) : option bool :=
  match x, y with
  | Some a, Some b => Some (bool_decide (a = b))
  | _, _ => None
  end.

(** [p AND q] in SQL (Kleene conjunction). *)
Definition sql_and (p q : option bool) : option bool :=
  match p, q with
  | Some false, _ | _, Some false => Some false
  | Some true, Some true => Some true
  | _, _ => None
  end.

(** WHERE, ON and [DataFrame.filter] keep the rows whose predicate is
    TRUE; FALSE and NULL both drop the row. *)
Definition sql_holds (p : option bool) : bool :=
  match p with Some true => true | _ => false end.

(** ** Schemas *)

(** Records of the [song_data] JSON files (the columns the queries name). *)
Module SongData.
Record row := {
  song_id : option string;
  title : option string;
  artist_id : option string;
  artist_name : option string;
  artist_location : option string;
  artist_latitude : option double;
  artist_longitude : option double;
  year : option Z;
  duration : option double }.
#[global] Instance row_eq_dec : EqDecision row.
Proof. solve_decision. Defined.
End SongData.

(** Records of the [log_data] JSON files. *)
Module LogData.
Record row := {
  userId : option string;
  firstName : option string;
  lastName : option string;
  gender : option string;
  level : option string;
  ts : option Z;
  page : option string;
  song : option string;
  artist : option string;
  sessionId : option Z;
  location : option string;
  userAgent : option string }.
#[global] Instance row_eq_dec : EqDecision row.
Proof. solve_decision. Defined.
End LogData.

(** [log_data] after [withColumn("start_time", ...)]. *)
Module LogTs.
Record row := { log : LogData.row; start_time : timestamp }.
#[global] Instance row_eq_dec : EqDecision row.
Proof. solve_decision. Defined.
End LogTs.

Module Songs.
Record row := {
  song_id : option string;
  title : option string;
  artist_id : option string;
  year : option Z;
  duration : option double }.
#[global] Instance row_eq_dec : EqDecision row.
Proof. solve_decision. Defined.
End Songs.

Module Artists.
Record row := {
  artist_id : option string;
  name : option string;
  location : option string;
  latitude : option double;
  longitude : option double }.
#[global] Instance row_eq_dec : EqDecision row.
Proof. solve_decision. Defined.
End Artists.

Module Users.
Record row := {
  user_id : option string;
  first_name : option string;
  last_name : option string;
  gender : option string;
  level : option string }.
#[global] Instance row_eq_dec : EqDecision row.
Proof. solve_decision. Defined.
End Users.

Module Time.
Record row := {
  start_time : timestamp;
  hour : Z;
  day : Z;
  week : Z;
  month : Z;
  year : Z;
  weekday : Z }.
#[global] Instance row_eq_dec : EqDecision row.
Proof. solve_decision. Defined.
End Time.

(** The rows of [song_df] (the join), before [songplay_id] is appended. *)
Module SongDf.
Record row := {
  start_time : timestamp;
  month : Z;
  year : Z;
  user_id : option string;
  level : option string;
  song_id : option string;
  artist_id : option string;
  session_id : option Z;
  location : option string;
  user_agent : option string }.
#[global] Instance row_eq_dec : EqDecision row.
Proof. solve_decision. Defined.
End SongDf.

Module Songplays.
Record row := { play : SongDf.row; songplay_id : Z }.
#[global] Instance row_eq_dec : EqDecision row.
Proof. solve_decision. Defined.
End Songplays.

(** ** SELECT DISTINCT

    DISTINCT compares whole rows, NULL equal to NULL; on lists this is
    stdpp's [remove_dups]. *)
Definition distinct {A} `{EqDecision A} (l : list A) : list A := remove_dups l.

(** ** Song catalog queries (etl.py, lines 42-46 and 56-60) *)

Definition songs_row (s : SongData.row) : Songs.row :=
  {| Songs.song_id := SongData.song_id s;
     Songs.title := SongData.title s;
     Songs.artist_id := SongData.artist_id s;
     Songs.year := SongData.year s;
     Songs.duration := SongData.duration s |}.

Definition artists_row (s : SongData.row) : Artists.row :=
  {| Artists.artist_id := SongData.artist_id s;
     Artists.name := SongData.artist_name s;
     Artists.location := SongData.artist_location s;
     Artists.latitude := SongData.artist_latitude s;
     Artists.longitude := SongData.artist_longitude s |}.

(** SELECT DISTINCT song_id, title, artist_id, year, duration FROM song_data *)
Definition select_songs (song_data : list SongData.row) : list Songs.row :=
  distinct (map songs_row song_data).

(** SELECT DISTINCT artist_id, artist_name AS name, ... FROM song_data *)
Definition select_artists (song_data : list SongData.row) : list Artists.row :=
  distinct (map artists_row song_data).

(** ** The UDF [get_timestamp] (etl.py, line 111)

    [lambda x: datetime.fromtimestamp((x/1000))].  The module imports
    [configparser], so this is Python 3 and [x/1000] is true division:
    the quotient of two ints, correctly rounded to a binary64 float.
    [datetime.fromtimestamp] splits the float with [modf], multiplies the
    fraction by [1e6] (a float product), rounds it half-to-even to whole
    microseconds and carries into the seconds.  The result is a naive
    [datetime]: the wall-clock time of the worker's time zone.  Spark
    stores it as microseconds since the epoch, which it gets back from the
    wall-clock time with [time.mktime]. *)

(** The nearest integer to [n/d] ([0 < d]), ties to the even one. *)
Definition round_half_even (n d : Z) : Z :=
  let q := n / d in
  match 2 * (n mod d) ?= d with
  | Lt => q
  | Gt => q + 1
  | Eq => if Z.even q then q else q + 1
  end.

(** A finite binary64 number, as [b_mant * 2 ^ b_exp]. *)
Record binary64 := B64 { b_mant : Z; b_exp : Z }.

(** [floor (log2 (n/d))] for positive [n] and [d]. *)
Definition ilog2 (n d : Z) : Z :=
  let k := Z.log2 n - Z.log2 d in
  if (if 0 <=? k then d * 2 ^ k <=? n else d <=? n * 2 ^ (- k))
  then k else k - 1.

(** [n/d] rounded to the nearest binary64 number (53 significant bits,
    ties to even).  Every value met below lies in the normal range, so
    neither overflow nor gradual underflow is described. *)
Definition round_to_binary64 (n d : Z) : binary64 :=
  if n =? 0 then B64 0 0
  else
    let e := ilog2 (Z.abs n) d - 52 in
    B64 (if 0 <=? e then round_half_even n (d * 2 ^ e)
         else round_half_even (n * 2 ^ (- e)) d) e.

(** Python 3 [x / y] on ints. *)
Definition truediv (x y : Z) : binary64 := round_to_binary64 x y.

(** C [modf]: the integral part (towards zero) and the fraction, the
    latter as an exact quotient [num / den]. *)
Definition modf (x : binary64) : Z * (Z * Z) :=
  if 0 <=? b_exp x then (b_mant x * 2 ^ b_exp x, (0, 1))
  else
    let den := 2 ^ (- b_exp x) in
    (Z.quot (b_mant x) den, (Z.rem (b_mant x) den, den)).

(** [_PyTime_Round(x, _PyTime_ROUND_HALF_EVEN)]. *)
Definition pytime_round (x : binary64) : Z :=
  if 0 <=? b_exp x then b_mant x * 2 ^ b_exp x
  else round_half_even (b_mant x) (2 ^ (- b_exp x)).

(** [_PyTime_DoubleToDenominator] with denominator [1e6]: whole seconds
    and microseconds in [0, 10^6). *)
Definition double_to_timeval (d : binary64) : Z * Z :=
  let '(intpart, (fnum, fden)) := modf d in
  let floatpart := pytime_round (round_to_binary64 (fnum * 1000000) fden) in
  if 1000000 <=? floatpart then (intpart + 1, floatpart - 1000000)
  else if floatpart <? 0 then (intpart - 1, floatpart + 1000000)
  else (intpart, floatpart).

(** ** Failures *)

Inductive exn :=
| AnalysisException   (* a view or a column that cannot be resolved, a missing path *)
| AttributeError      (* [df.page] on a DataFrame without that column *)
| PythonException.    (* the UDF raised inside a job *)

Inductive result (A : Type) :=
| Ok (a : A)
| Raise (e : exn).
Arguments Ok {A} a.
Arguments Raise {A} e.

(** ** Time zones

    The script sets no time zone: the Python workers and the session of
    the JVM use the zone of the machine.  A zone gives the offset from
    UTC in force at an instant (seconds east of UTC, as a function of the
    seconds since the epoch), and [mktime] finds an instant for a
    wall-clock time (the seconds since the epoch that this wall-clock
    time would be in UTC).  Offsets stay within a day, and [mktime]
    returns an instant that shows the wall-clock time it was given
    whenever there is one; which one it picks when the clocks were set
    back and the wall-clock time occurred twice is the zone's affair. *)
Record TimeZone := {
  utcoffset : Z → Z;
  mktime : Z → Z;
  utcoffset_range : ∀ s, -86400 < utcoffset s < 86400;
  mktime_localtime : ∀ s,
    mktime (s + utcoffset s) + utcoffset (mktime (s + utcoffset s)) = s + utcoffset s }.

(** C [localtime]: the wall-clock time at the instant [s]. *)
Definition localtime (tz : TimeZone) (s : Z) : Z := s + utcoffset tz s.

(** UTC. *)
Definition utc : TimeZone.
Proof.
  refine {| utcoffset := λ _, 0; mktime := λ l, l |}; abstract (intros; lia).
Defined.

(** The Pacific time zone in 2018: UTC-8, and UTC-7 from March 11th,
    10:00 UTC to November 4th, 9:00 UTC.  Of the two instants of a
    wall-clock time in the repeated hour, [mktime] gives the later one
    (standard time). *)
Definition pacific_offset (s : Z) : Z :=
  if (1520762400 <=? s) && (s <? 1541322000) then -25200 else -28800.

Definition pacific_mktime (l : Z) : Z :=
  if pacific_offset (l + 28800) =? -28800 then l + 28800
  else if pacific_offset (l + 25200) =? -25200 then l + 25200
  else l + 28800.

Definition pacific : TimeZone.
Proof.
  refine {| utcoffset := pacific_offset; mktime := pacific_mktime |};
    abstract (intros s; unfold pacific_mktime, pacific_offset;
              repeat (match goal with
                      | |- context [Z.leb ?a ?b] => destruct (Z.leb_spec a b)
                      | |- context [Z.ltb ?a ?b] => destruct (Z.ltb_spec a b)
                      end;
                      cbv [andb] in *; cbv iota in *;
                      change (-25200 =? -28800) with false in *;
                      change (-28800 =? -28800) with true in *;
                      change (-28800 =? -25200) with false in *;
                      change (-25200 =? -25200) with true in *;
                      cbv iota in *);
              lia).
Defined.

(** Years 1 to 9999, the range of Python's [datetime]. *)
Definition min_timestamp : Z := -62135596800 * 1000000.
Definition max_timestamp : Z := 253402300800 * 1000000.

(** [get_timestamp]: a NULL [ts] reaches the lambda as [None], and
    [None/1000] raises TypeError.  Otherwise [fromtimestamp] takes the
    wall-clock time of the whole seconds and builds a [datetime] from it
    and from the microseconds; the constructor refuses a year outside
    1..9999 and microseconds outside 0..999999 (ValueError).  An
    exception fails the job that evaluates the column.  Spark's
    [TimestampType] stores a naive [datetime] [dt] as
    [int(time.mktime(dt.timetuple())) * 1000000 + dt.microsecond]. *)
Definition get_timestamp (tz : TimeZone) (x : option Z) : result timestamp :=
  match x with
  | None => Raise PythonException
  | Some x =>
      let '(sec, us) := double_to_timeval (truediv x 1000) in
      let dt := localtime tz sec in
      if (min_timestamp <=? dt * 1000000) && (dt * 1000000 <? max_timestamp)
         && (0 <=? us) && (us <? 1000000)
      then Ok (mktime tz dt * 1000000 + us)
      else Raise PythonException
  end.

(** ** Calendar functions of Spark SQL

    [hour], [dayofmonth], [weekofyear], [month], [year] and [dayofweek]
    of a timestamp, in the proleptic Gregorian calendar and in the
    session time zone: Spark reads the fields off the wall-clock time
    that the zone shows at the instant. *)

Definition micros_per_day : Z := 86400000000.

(** The wall-clock time at the instant [t], in microseconds ([/] on [Z]
    rounds down). *)
Definition local_micros (tz : TimeZone) (t : timestamp) : Z :=
  t + utcoffset tz (t / 1000000) * 1000000.

(** Days since 1970-01-01 of a wall-clock time. *)
Definition epoch_day (t : Z) : Z := t / micros_per_day.

(** Civil date of a day number: [(year, month, day)]. *)
Definition civil_from_days (days : Z) : Z * Z * Z :=
  let z := days + 719468 in
  let era := z / 146097 in
  let doe := z - era * 146097 in
  let yoe := (doe - doe / 1460 + doe / 36524 - doe / 146096) / 365 in
  let doy := doe - (365 * yoe + yoe / 4 - yoe / 100) in
  let mp := (5 * doy + 2) / 153 in
  let d := doy - (153 * mp + 2) / 5 + 1 in
  let m := if mp <? 10 then mp + 3 else mp - 9 in
  (yoe + era * 400 + (if m <=? 2 then 1 else 0), m, d).

(** Day number of a civil date. *)
Definition days_from_civil (y m d : Z) : Z :=
  let y := if m <=? 2 then y - 1 else y in
  let era := y / 400 in
  let yoe := y - era * 400 in
  let doy := (153 * (if 2 <? m then m - 3 else m + 9) + 2) / 5 + d - 1 in
  let doe := yoe * 365 + yoe / 4 - yoe / 100 + doy in
  era * 146097 + doe - 719468.

Definition hour (tz : TimeZone) (t : timestamp) : Z :=
  (local_micros tz t mod micros_per_day) / 3600000000.
Definition year (tz : TimeZone) (t : timestamp) : Z :=
  (civil_from_days (epoch_day (local_micros tz t))).1.1.
Definition month (tz : TimeZone) (t : timestamp) : Z :=
  (civil_from_days (epoch_day (local_micros tz t))).1.2.
Definition dayofmonth (tz : TimeZone) (t : timestamp) : Z :=
  (civil_from_days (epoch_day (local_micros tz t))).2.

(** 1 = Sunday, ..., 7 = Saturday (1970-01-01 was a Thursday). *)
Definition dayofweek (tz : TimeZone) (t : timestamp) : Z :=
  (epoch_day (local_micros tz t) + 4) mod 7 + 1.

(** ISO 8601 week: the week of a day is the week of its Thursday, and
    weeks are counted within that Thursday's year. *)
Definition weekofyear (tz : TimeZone) (t : timestamp) : Z :=
  let days := epoch_day (local_micros tz t) in
  let thursday := days - (days + 3) mod 7 + 3 in
  let y := (civil_from_days thursday).1.1 in
  (thursday - days_from_civil y 1 1) / 7 + 1.

(** ** Event log queries (etl.py, lines 85-153) *)

(** [df.filter(df.page == 'NextSong')] *)
Definition filter_next_song (df : list LogData.row) : list LogData.row :=
  filter (λ r, sql_holds (sql_eq (LogData.page r) (Some "NextSong"%string))) df.

(** An inner join: the pairs on which the ON condition is TRUE. *)
Definition inner_join {A B} (on : A → B → option bool)
    (l : list A) (r : list B) : list (A * B) :=
  flat_map (λ a, map (pair a) (filter (λ b, sql_holds (on a b)) r)) l.

(** [MAX] skips NULLs and is NULL when nothing else is left. *)
Definition sql_max (l : list (option Z)) : option Z :=
  foldr (λ x acc,
         match x, acc with
         | Some a, Some b => Some (Z.max a b)
         | Some a, None => Some a
         | None, _ => acc
         end) None l.

(** SELECT userId, MAX(ts) as ts FROM log_data GROUP BY userId
    (GROUP BY puts the rows with a NULL [userId] into one group). *)
Definition latest (log_data : list LogData.row) : list (option string * option Z) :=
  map (λ u, (u, sql_max (map LogData.ts
                           (filter (λ r, LogData.userId r = u) log_data))))
      (distinct (map LogData.userId log_data)).

Definition users_row (s : LogData.row) : Users.row :=
  {| Users.user_id := LogData.userId s;
     Users.first_name := LogData.firstName s;
     Users.last_name := LogData.lastName s;
     Users.gender := LogData.gender s;
     Users.level := LogData.level s |}.

(** SELECT DISTINCT s.userId AS user_id, ... FROM log_data s
    JOIN latest ON latest.userId = s.userId WHERE s.ts = latest.ts *)
Definition select_users (log_data : list LogData.row) : list Users.row :=
  distinct
    (map (λ sl, users_row sl.1)
       (filter (λ sl, sql_holds (sql_eq (LogData.ts sl.1) sl.2.2))
          (inner_join (λ s l, sql_eq l.1 (LogData.userId s))
             log_data (latest log_data)))).

(** [df.withColumn("start_time", get_timestamp(df.ts))]: the column is
    computed when a job runs, and one failing row fails the job. *)
Fixpoint with_start_time (tz : TimeZone) (df : list LogData.row) :
    result (list LogTs.row) :=
  match df with
  | [] => Ok []
  | r :: df =>
      match get_timestamp tz (LogData.ts r), with_start_time tz df with
      | Ok t, Ok rows => Ok ({| LogTs.log := r; LogTs.start_time := t |} :: rows)
      | Raise e, _ => Raise e
      | _, Raise e => Raise e
      end
  end.

Definition time_row (tz : TimeZone) (t : timestamp) : Time.row :=
  {| Time.start_time := t;
     Time.hour := hour tz t;
     Time.day := dayofmonth tz t;
     Time.week := weekofyear tz t;
     Time.month := month tz t;
     Time.year := year tz t;
     Time.weekday := dayofweek tz t |}.

(** SELECT DISTINCT start_time, hour(start_time) AS hour, ... FROM log_data *)
Definition select_time (tz : TimeZone) (log_data : list LogTs.row) : list Time.row :=
  distinct (map (λ r, time_row tz (LogTs.start_time r)) log_data).

Definition song_df_row (tz : TimeZone) (l : LogTs.row) (s : SongData.row) : SongDf.row :=
  {| SongDf.start_time := LogTs.start_time l;
     SongDf.month := month tz (LogTs.start_time l);
     SongDf.year := year tz (LogTs.start_time l);
     SongDf.user_id := LogData.userId (LogTs.log l);
     SongDf.level := LogData.level (LogTs.log l);
     SongDf.song_id := SongData.song_id s;
     SongDf.artist_id := SongData.artist_id s;
     SongDf.session_id := LogData.sessionId (LogTs.log l);
     SongDf.location := LogData.location (LogTs.log l);
     SongDf.user_agent := LogData.userAgent (LogTs.log l) |}.

(** The ON condition [l.song = s.title AND l.artist = s.artist_name]. *)
Definition song_match (l : LogTs.row) (s : SongData.row) : option bool :=
  sql_and (sql_eq (LogData.song (LogTs.log l)) (SongData.title s))
          (sql_eq (LogData.artist (LogTs.log l)) (SongData.artist_name s)).

(** SELECT l.start_time, month(l.start_time) AS month, ...
    FROM log_data l JOIN song_data s ON l.song = s.title AND l.artist = s.artist_name *)
Definition select_song_df (tz : TimeZone) (log_data : list LogTs.row)
    (song_data : list SongData.row) : list SongDf.row :=
  map (λ ls, song_df_row tz ls.1 ls.2) (inner_join song_match log_data song_data).

(** ** [monotonically_increasing_id()]

    Spark numbers the rows of a DataFrame partition by partition: the
    partition index goes to the upper 31 bits of a 64-bit long and the
    position of the row inside its partition to the lower 33 bits.  How
    the joined rows are cut into partitions is the engine's choice and
    may change from run to run; here it is a list of partition sizes. *)

Definition wrap64 (z : Z) : Z := (z + 2 ^ 63) mod 2 ^ 64 - 2 ^ 63.

(** The partitions: [n] rows for each size [n] of [cuts] in turn, and a
    last partition with what is left. *)
Fixpoint partitions {A} (cuts : list nat) (rows : list A) : list (list A) :=
  match cuts with
  | [] => [rows]
  | n :: cuts => take n rows :: partitions cuts (drop n rows)
  end.

(** [partitionMask + count], computed on 64-bit longs. *)
Definition row_id (partitionIndex count : nat) : Z :=
  wrap64 (Z.shiftl (Z.of_nat partitionIndex) 33 + Z.of_nat count).

(** [song_df.withColumn("songplay_id", monotonically_increasing_id())] *)
Definition with_songplay_id (parts : list (list SongDf.row)) : list Songplays.row :=
  concat (imap (λ p rows,
                  imap (λ k r, {| Songplays.play := r;
                                  Songplays.songplay_id := row_id p k |}) rows)
               parts).

(** ** The session, the files and the monad *)

(** A directory of JSON records, as [spark.read.json] infers it. *)
Inductive Dataset :=
| SongFiles (records : list SongData.row)
| LogFiles (records : list LogData.row).

(** The DataFrames that get registered as views.  [LogTsDF rows] is
    [rows] with the [start_time] column still to be computed: DataFrames
    are lazy and the UDF runs inside the jobs that read the column. *)
Inductive DataFrame :=
| SongDF (rows : list SongData.row)
| LogDF (rows : list LogData.row)
| LogTsDF (rows : list LogData.row).

Inductive Table :=
| SongsTable (rows : list Songs.row)
| ArtistsTable (rows : list Artists.row)
| UsersTable (rows : list Users.row)
| TimeTable (rows : list Time.row)
| SongplaysTable (rows : list Songplays.row).

(** A written table and the columns it is partitioned by. *)
Record Parquet := { partitionBy : list string; contents : Table }.

Record World := {
  json_files : gmap string Dataset;       (* the input location *)
  temp_views : gmap string DataFrame;     (* the session's temporary views *)
  parquet_files : gmap string Parquet;    (* the output location *)
  environ : gmap string string;           (* os.environ *)
  shuffle : list nat;                     (* how this run partitions [song_df] *)
  timezone : TimeZone                     (* the time zone of the machine *)
}.

(** Updates of one component of the world. *)
Definition with_view (name : string) (df : DataFrame) (w : World) : World :=
  {| json_files := json_files w;
     temp_views := <[name := df]> (temp_views w);
     parquet_files := parquet_files w;
     environ := environ w;
     shuffle := shuffle w;
     timezone := timezone w |}.

Definition with_parquet (path : string) (t : Parquet) (w : World) : World :=
  {| json_files := json_files w;
     temp_views := temp_views w;
     parquet_files := <[path := t]> (parquet_files w);
     environ := environ w;
     shuffle := shuffle w;
     timezone := timezone w |}.

Definition with_env (k v : string) (w : World) : World :=
  {| json_files := json_files w;
     temp_views := temp_views w;
     parquet_files := parquet_files w;
     environ := <[k := v]> (environ w);
     shuffle := shuffle w;
     timezone := timezone w |}.

Definition M (A : Type) : Type := World → result A * World.

Definition ret {A} (a : A) : M A := λ w, (Ok a, w).
Definition raise {A} (e : exn) : M A := λ w, (Raise e, w).
Definition bind {A B} (m : M A) (k : A → M B) : M B :=
  λ w, match m w with
       | (Ok a, w') => k a w'
       | (Raise e, w') => (Raise e, w')
       end.

Notation "x <- m ;; k" := (bind m (λ x, k))
  (at level 100, m at next level, right associativity).
Notation "m ;; k" := (bind m (λ _, k))
  (at level 100, right associativity).

(** [os.path.join(a, p)] (posixpath). *)
Definition starts_with_slash (s : string) : bool :=
  match s with
  | String c _ => bool_decide (c = "/"%char)
  | EmptyString => false
  end.

Fixpoint ends_with_slash (s : string) : bool :=
  match s with
  | EmptyString => false
  | String c EmptyString => bool_decide (c = "/"%char)
  | String _ s => ends_with_slash s
  end.

Definition path_join (a p : string) : string :=
  if starts_with_slash p then p
  else if bool_decide (a = ""%string) || ends_with_slash a then a +:+ p
  else a +:+ "/" +:+ p.

(** [spark.read.json(path)] *)
Definition read_json (path : string) : M DataFrame :=
  λ w, match json_files w !! path with
       | Some (SongFiles records) => (Ok (SongDF records), w)
       | Some (LogFiles records) => (Ok (LogDF records), w)
       | None => (Raise AnalysisException, w)
       end.

(** [df.createOrReplaceTempView(name)] *)
Definition createOrReplaceTempView (df : DataFrame) (name : string) : M unit :=
  λ w, (Ok (), with_view name df w).

(** A view named in a FROM clause; [spark.sql] resolves it at once. *)
Definition table (name : string) : M DataFrame :=
  λ w, match temp_views w !! name with
       | Some df => (Ok df, w)
       | None => (Raise AnalysisException, w)
       end.

(** [df.write.partitionBy(...).mode("overwrite").parquet(path)]: the job
    runs here; when it succeeds the table replaces whatever was at
    [path].  What a failed job leaves at [path] is not described. *)
Definition write_parquet (partition_by : list string) (df : result Table)
    (path : string) : M unit :=
  λ w, match df with
       | Ok t => (Ok (), with_parquet path {| partitionBy := partition_by; contents := t |} w)
       | Raise e => (Raise e, w)
       end.

(** [os.environ[k] = v] *)
Definition setenv (k v : string) : M unit :=
  λ w, (Ok (), with_env k v w).

(** The partitioning the engine uses for [song_df] in this run. *)
Definition get_shuffle : M (list nat) := λ w, (Ok (shuffle w), w).

(** The time zone the jobs run in. *)
Definition get_timezone : M TimeZone := λ w, (Ok (timezone w), w).

Definition fmap_result {A B} (f : A → B) (r : result A) : result B :=
  match r with Ok a => Ok (f a) | Raise e => Raise e end.

(** ** The queries, as [spark.sql] runs them against the session *)

Definition sql_songs_table : M (list Songs.row) :=
  v <- table "song_data" ;;
  match v with
  | SongDF rows => ret (select_songs rows)
  | _ => raise AnalysisException
  end.

Definition sql_artists_table : M (list Artists.row) :=
  v <- table "song_data" ;;
  match v with
  | SongDF rows => ret (select_artists rows)
  | _ => raise AnalysisException
  end.

Definition sql_users_table : M (list Users.row) :=
  v <- table "log_data" ;;
  match v with
  | LogDF rows | LogTsDF rows => ret (select_users rows)
  | SongDF _ => raise AnalysisException
  end.

(** The queries that read [start_time] give a DataFrame whose job may
    fail in the UDF; the failure shows when the table is written. *)
Definition sql_time_table : M (result (list Time.row)) :=
  v <- table "log_data" ;;
  tz <- get_timezone ;;
  match v with
  | LogTsDF rows => ret (fmap_result (select_time tz) (with_start_time tz rows))
  | _ => raise AnalysisException
  end.

Definition sql_song_df : M (result (list SongDf.row)) :=
  l <- table "log_data" ;;
  s <- table "song_data" ;;
  tz <- get_timezone ;;
  match l, s with
  | LogTsDF lrows, SongDF srows =>
      ret (fmap_result (λ lrows, select_song_df tz lrows srows)
             (with_start_time tz lrows))
  | _, _ => raise AnalysisException
  end.

(** [df.filter(df.page == 'NextSong')] *)
Definition filter_page (df : DataFrame) : M DataFrame :=
  match df with
  | LogDF rows => ret (LogDF (filter_next_song rows))
  | LogTsDF rows => ret (LogTsDF (filter_next_song rows))
  | SongDF _ => raise AttributeError
  end.

(** [df.withColumn("start_time", get_timestamp(df.ts))] *)
Definition withColumn_start_time (df : DataFrame) : M DataFrame :=
  match df with
  | LogDF rows | LogTsDF rows => ret (LogTsDF rows)
  | SongDF _ => raise AttributeError
  end.

(** ** The transforms *)

(** [SparkSession.builder...getOrCreate()]: the session is the
    [temp_views] component of the world. *)
Definition create_spark_session : M unit := ret ().

Definition process_song_data (input_data output_data : string) : M unit :=
  let song_data := path_join input_data "song_data" in
  df <- read_json song_data ;;
  createOrReplaceTempView df "song_data" ;;
  songs_table <- sql_songs_table ;;
  write_parquet ["year"; "artist_id"]%string (Ok (SongsTable songs_table))
    (path_join output_data "songs.parquet") ;;
  artists_table <- sql_artists_table ;;
  write_parquet [] (Ok (ArtistsTable artists_table))
    (path_join output_data "artists.parquet").

Definition process_log_data (input_data output_data : string) : M unit :=
  let log_data := path_join input_data "log_data" in
  df <- read_json log_data ;;
  df <- filter_page df ;;
  createOrReplaceTempView df "log_data" ;;
  users_table <- sql_users_table ;;
  write_parquet [] (Ok (UsersTable users_table))
    (path_join output_data "users.parquet") ;;
  df <- withColumn_start_time df ;;
  createOrReplaceTempView df "log_data" ;;
  time_table <- sql_time_table ;;
  write_parquet ["year"; "month"]%string (fmap_result TimeTable time_table)
    (path_join output_data "time.parquet") ;;
  song_df <- sql_song_df ;;
  cuts <- get_shuffle ;;
  let songplays_table :=
    fmap_result (λ rows, with_songplay_id (partitions cuts rows)) song_df in
  write_parquet ["year"; "month"]%string (fmap_result SongplaysTable songplays_table)
    (path_join output_data "songplays.parquet").

(** The parsed [dl.cfg]. *)
Record Config := {
  AWS_ACCESS_KEY_ID : string;
  AWS_SECRET_ACCESS_KEY : string;
  INPUT_DATA : string;
  OUTPUT_DATA : string }.

Definition main (config : Config) : M unit :=
  setenv "AWS_ACCESS_KEY_ID" (AWS_ACCESS_KEY_ID config) ;;
  setenv "AWS_SECRET_ACCESS_KEY" (AWS_SECRET_ACCESS_KEY config) ;;
  let input_data := INPUT_DATA config in
  let output_data := OUTPUT_DATA config in
  create_spark_session ;;
  process_song_data input_data output_data ;;
  process_log_data input_data output_data.

(** ** Vocabulary of the properties *)

(** The world with other JSON records at [path]. *)
Definition with_json (path : string) (d : Dataset) (w : World) : World :=
  {| json_files := <[path := d]> (json_files w);
     temp_views := temp_views w;
     parquet_files := parquet_files w;
     environ := environ w;
     shuffle := shuffle w;
     timezone := timezone w |}.

(** The world of a later run: same files on the same machine, some other
    session, environment and partitioning. *)
Definition rerun (views : gmap string DataFrame) (env : gmap string string)
    (cuts : list nat) (w : World) : World :=
  {| json_files := json_files w;
     temp_views := views;
     parquet_files := parquet_files w;
     environ := env;
     shuffle := cuts;
     timezone := timezone w |}.

(** The catalog record [s] carries exactly the song title and the artist
    name of the event [l], none of them NULL. *)
Definition exact_match (l : LogTs.row) (s : SongData.row) : Prop :=
  is_Some (LogData.song (LogTs.log l)) ∧
  is_Some (LogData.artist (LogTs.log l)) ∧
  SongData.title s = LogData.song (LogTs.log l) ∧
  SongData.artist_name s = LogData.artist (LogTs.log l).

#[global] Instance exact_match_dec l s : Decision (exact_match l s).
Proof. unfold exact_match. apply _. Defined.

(** The rows of [song_df] that stem from the event [l]: one for each
    catalog record on which the ON condition is TRUE. *)
Definition songplays_of (tz : TimeZone) (song_data : list SongData.row)
    (l : LogTs.row) : list SongDf.row :=
  map (song_df_row tz l) (filter (λ s, sql_holds (song_match l s)) song_data).

(** [t] is the greatest [ts] among the events of user [u] in [log]. *)
Definition is_latest (log : list LogData.row) (u : string) (t : Z) : Prop :=
  ∀ e t', e ∈ log → LogData.userId e = Some u → LogData.ts e = Some t' → t' ≤ t.

(** The limits under which Spark documents [monotonically_increasing_id]:
    fewer than 2^31 partitions, fewer than 2^33 rows in each. *)
Definition within_id_limits {A} (parts : list (list A)) : Prop :=
  Z.of_nat (length parts) ≤ 2 ^ 31 ∧
  Forall (λ part, Z.of_nat (length part) ≤ 2 ^ 33) parts.

(** The rows of the partitions, numbered by an arbitrary function of the
    partition index and of the position; [with_songplay_id] is the case
    [id = row_id]. *)
Definition number (id : nat → nat → Z) (parts : list (list SongDf.row))
  : list Songplays.row :=
  concat (imap (λ p rows,
                  imap (λ k r, {| Songplays.play := r;
                                  Songplays.songplay_id := id p k |}) rows)
               parts).

(** A [binary64] number in the standard library's specification of
    IEEE 754 arithmetic, against which the rounding above is checked. *)
Definition spec_of_binary64 (x : binary64) : SpecFloat.spec_float :=
  match b_mant x with
  | Z0 => SpecFloat.S754_zero false
  | Zpos m => SpecFloat.S754_finite false m (b_exp x)
  | Zneg m => SpecFloat.S754_finite true m (b_exp x)
  end.

(** The binary64 number of an integer, and binary64 division and
    multiplication, as the standard library specifies them. *)
Definition spec_of_Z (n : Z) : SpecFloat.spec_float :=
  SpecFloat.binary_normalize 53 1024 n 0 false.

Definition spec_div (x y : Z) : SpecFloat.spec_float :=
  SpecFloat.SFdiv 53 1024 (spec_of_Z x) (spec_of_Z y).

(** The product of the binary64 number [n * 2 ^ e] with [1e6]. *)
Definition spec_mul_1e6 (n e : Z) : SpecFloat.spec_float :=
  SpecFloat.SFmul 53 1024 (SpecFloat.binary_normalize 53 1024 n e false)
    (spec_of_Z 1000000).

(** ** Sample inputs *)

Definition sample_song (id title artist : string) : SongData.row :=
  {| SongData.song_id := Some id;
     SongData.title := Some title;
     SongData.artist_id := Some ("A" +:+ id);
     SongData.artist_name := Some artist;
     SongData.artist_location := None;
     SongData.artist_latitude := None;
     SongData.artist_longitude := None;
     SongData.year := Some 2000;
     SongData.duration := Some 4642600403285623275 |}.

Definition sample_event (user level : string) (ts : Z) (page song artist : string)
  : LogData.row :=
  {| LogData.userId := Some user;
     LogData.firstName := Some "Ada"%string;
     LogData.lastName := Some "Lee"%string;
     LogData.gender := Some "F"%string;
     LogData.level := Some level;
     LogData.ts := Some ts;
     LogData.page := Some page;
     LogData.song := Some song;
     LogData.artist := Some artist;
     LogData.sessionId := Some 7;
     LogData.location := None;
     LogData.userAgent := None |}.

(** Files under the input location ["in"], an empty session, no output. *)
Definition sample_world (songs : list SongData.row) (events : list LogData.row)
    (cuts : list nat) : World :=
  {| json_files :=
       <["in/song_data"%string := SongFiles songs]>
         (<["in/log_data"%string := LogFiles events]> ∅);
     temp_views := ∅;
     parquet_files := ∅;
     environ := ∅;
     shuffle := cuts;
     timezone := utc |}.

Definition sample_config : Config :=
  {| AWS_ACCESS_KEY_ID := "id";
     AWS_SECRET_ACCESS_KEY := "secret";
     INPUT_DATA := "in";
     OUTPUT_DATA := "out" |}.

(** The catalog with one song delivered twice. *)
Definition catalog_twice : list SongData.row :=
  [sample_song "S1" "Foo" "Bar"; sample_song "S1" "Foo" "Bar"].

(** User 10 moves from "free" (ts = 100) to "paid" (ts = 200). *)
Definition events_upgrade : list LogData.row :=
  [sample_event "10" "free" 100 "NextSong" "Foo" "Bar";
   sample_event "10" "paid" 200 "NextSong" "Foo" "bar"].

(** Two events of user 10 share the greatest [ts] and differ in [level]. *)
Definition events_tie : list LogData.row :=
  [sample_event "10" "free" 200 "NextSong" "Foo" "Bar";
   sample_event "10" "paid" 200 "NextSong" "Foo" "Bar"].

(** A play of "Foo" by "Bar", a play of a song the catalog lacks, and a
    play of "Foo" by "bar" (lower case). *)
Definition events_plays : list LogData.row :=
  [sample_event "10" "free" 1542241826796 "NextSong" "Foo" "Bar";
   sample_event "11" "free" 1542241827796 "NextSong" "Baz" "Bar";
   sample_event "12" "paid" 1542241828796 "NextSong" "Foo" "bar"].

Definition events_plays_ts : list LogTs.row :=
  [{| LogTs.log := sample_event "10" "free" 1542241826796 "NextSong" "Foo" "Bar";
      LogTs.start_time := 1542241826796000 |};
   {| LogTs.log := sample_event "11" "free" 1542241827796 "NextSong" "Baz" "Bar";
      LogTs.start_time := 1542241827796000 |};
   {| LogTs.log := sample_event "12" "paid" 1542241828796 "NextSong" "Foo" "bar";
      LogTs.start_time := 1542241828796000 |}].

(** ** Further sample inputs *)

(** An input location with the event log only, and one with the song
    files only. *)
Definition world_without_songs (events : list LogData.row) : World :=
  {| json_files := <["in/log_data"%string := LogFiles events]> ∅;
     temp_views := ∅;
     parquet_files := ∅;
     environ := ∅;
     shuffle := [];
     timezone := utc |}.

Definition world_without_logs (songs : list SongData.row) : World :=
  {| json_files := <["in/song_data"%string := SongFiles songs]> ∅;
     temp_views := ∅;
     parquet_files := ∅;
     environ := ∅;
     shuffle := [];
     timezone := utc |}.

(** A play event without [ts]. *)
Definition event_without_ts : LogData.row :=
  {| LogData.userId := Some "13"%string;
     LogData.firstName := Some "Ada"%string;
     LogData.lastName := Some "Lee"%string;
     LogData.gender := Some "F"%string;
     LogData.level := Some "free"%string;
     LogData.ts := None;
     LogData.page := Some "NextSong"%string;
     LogData.song := Some "Foo"%string;
     LogData.artist := Some "Bar"%string;
     LogData.sessionId := Some 7;
     LogData.location := None;
     LogData.userAgent := None |}.

(** The same world on a machine in another time zone. *)
Definition with_timezone (tz : TimeZone) (w : World) : World :=
  {| json_files := json_files w;
     temp_views := temp_views w;
     parquet_files := parquet_files w;
     environ := environ w;
     shuffle := shuffle w;
     timezone := tz |}.

(** The five output paths of a run. *)
Definition output_paths (output_data : string) : list string :=
  [path_join output_data "songs.parquet";
   path_join output_data "artists.parquet";
   path_join output_data "users.parquet";
   path_join output_data "time.parquet";
   path_join output_data "songplays.parquet"].

(** The parsed configuration with another output location. *)
Definition with_output_data (output_data : string) (config : Config) : Config :=
  {| AWS_ACCESS_KEY_ID := AWS_ACCESS_KEY_ID config;
     AWS_SECRET_ACCESS_KEY := AWS_SECRET_ACCESS_KEY config;
     INPUT_DATA := INPUT_DATA config;
     OUTPUT_DATA := output_data |}.

(** An event log without any play event. *)
Definition events_no_play : list LogData.row :=
  [sample_event "10" "free" 100 "Home" "Foo" "Bar";
   sample_event "11" "paid" 200 "Logout" "Foo" "Bar"].

(** The songplays rows of the sample run, in one partition. *)
Definition sample_songplays : list Songplays.row :=
  with_songplay_id (partitions [] (select_song_df utc events_plays_ts catalog_twice)).


(** * Paths *)

Lemma append_inj_r (a p q : string) : a +:+ p = a +:+ q → p = q.
Proof. induction a as [|c a IH]; simpl; [done|]. intros [=]. auto. Qed.

Lemma path_join_inj (a p q : string) :
  starts_with_slash p = false → starts_with_slash q = false →
  path_join a p = path_join a q → p = q.
Proof.
  unfold path_join. intros -> ->.
  destruct (bool_decide (a = ""%string) || ends_with_slash a); intros H.
  - by apply append_inj_r in H.
  - apply append_inj_r in H. by apply (append_inj_r "/") in H.
Qed.

Lemma path_join_ne (a p q : string) :
  starts_with_slash p = false → starts_with_slash q = false →
  p ≠ q → path_join a p ≠ path_join a q.
Proof. intros Hp Hq Hne H. by apply Hne, (path_join_inj a). Qed.

Ltac paths_ne := apply path_join_ne; [reflexivity | reflexivity | discriminate].

(** * Running the transforms *)

Lemma table_with_view name df w :
  table name (with_view name df w) = (Ok df, with_view name df w).
Proof. unfold table. simpl. by rewrite lookup_insert_eq. Qed.

Lemma table_with_view_ne name name' df w :
  name' ≠ name →
  table name (with_view name' df w) =
    match temp_views w !! name with
    | Some v => (Ok v, with_view name' df w)
    | None => (Raise AnalysisException, with_view name' df w)
    end.
Proof. intros. unfold table. simpl. by rewrite lookup_insert_ne. Qed.

Lemma table_with_parquet name p t w :
  table name (with_parquet p t w) =
    match table name w with
    | (r, _) => (r, with_parquet p t w)
    end.
Proof. unfold table. simpl. by destruct (temp_views w !! name). Qed.

Lemma process_song_data_run input output w :
  process_song_data input output w =
    match json_files w !! path_join input "song_data" with
    | Some (SongFiles songs) =>
        (Ok (),
         with_parquet (path_join output "artists.parquet")
           {| partitionBy := []; contents := ArtistsTable (select_artists songs) |}
           (with_parquet (path_join output "songs.parquet")
              {| partitionBy := ["year"; "artist_id"]%string;
                 contents := SongsTable (select_songs songs) |}
              (with_view "song_data" (SongDF songs) w)))
    | Some (LogFiles recs) =>
        (Raise AnalysisException, with_view "song_data" (LogDF recs) w)
    | None => (Raise AnalysisException, w)
    end.
Proof.
  unfold process_song_data, bind, read_json.
  destruct (json_files w !! path_join input "song_data") as [[songs|recs]|];
    [| |done]; cbn [createOrReplaceTempView];
    unfold sql_songs_table, bind; rewrite table_with_view; [|done].
  cbn [ret write_parquet]. unfold sql_artists_table, bind.
  rewrite table_with_parquet, table_with_view. done.
Qed.

Lemma process_log_data_run_log input output w recs :
  json_files w !! path_join input "log_data" = Some (LogFiles recs) →
  let log := filter_next_song recs in
  let w1 :=
    with_parquet (path_join output "users.parquet")
      {| partitionBy := []; contents := UsersTable (select_users log) |}
      (with_view "log_data" (LogDF log) w) in
  let w2 := with_view "log_data" (LogTsDF log) w1 in
  process_log_data input output w =
    match with_start_time (timezone w) log with
    | Raise e => (Raise e, w2)
    | Ok lts =>
        let w3 :=
          with_parquet (path_join output "time.parquet")
            {| partitionBy := ["year"; "month"]%string;
               contents := TimeTable (select_time (timezone w) lts) |} w2 in
        match temp_views w !! "song_data"%string with
        | Some (SongDF songs) =>
            (Ok (),
             with_parquet (path_join output "songplays.parquet")
               {| partitionBy := ["year"; "month"]%string;
                  contents :=
                    SongplaysTable
                      (with_songplay_id
                         (partitions (shuffle w) (select_song_df (timezone w) lts songs))) |}
               w3)
        | _ => (Raise AnalysisException, w3)
        end
    end.
Proof.
  intros Hin log w1 w2. unfold process_log_data, bind, read_json. rewrite Hin.
  cbn [filter_page ret createOrReplaceTempView].
  unfold sql_users_table, bind. rewrite table_with_view.
  cbn [ret write_parquet withColumn_start_time]. fold log. fold w1.
  unfold sql_time_table, bind. fold w2. unfold w2 at 1. rewrite table_with_view. fold w2.
  unfold get_timezone. change (timezone w2) with (timezone w). cbn [ret].
  destruct (with_start_time (timezone w) log) as [lts|e] eqn:Hts;
    cbn [fmap_result write_parquet]; [|done].
  unfold sql_song_df, bind. rewrite table_with_parquet. unfold w2 at 1.
  rewrite table_with_view. fold w2.
  rewrite table_with_parquet. unfold w2 at 1. rewrite table_with_view_ne by done.
  unfold w1 at 1. cbn [temp_views with_parquet with_view].
  rewrite lookup_insert_ne by done.
  destruct (temp_views w !! "song_data"%string) as [[songs|?|?]|];
    unfold ret, raise, get_shuffle, get_timezone; cbn [timezone with_parquet];
    change (timezone w2) with (timezone w); rewrite ?Hts; done.
Qed.

Lemma process_log_data_run_other input output w :
  (∀ recs, json_files w !! path_join input "log_data" ≠ Some (LogFiles recs)) →
  ∃ e, process_log_data input output w = (Raise e, w).
Proof.
  intros Hne. unfold process_log_data, bind, read_json.
  destruct (json_files w !! path_join input "log_data") as [[songs|recs]|];
    [by eexists| by destruct (Hne recs) | by eexists].
Qed.

Lemma main_unfold config w :
  main config w =
    let w0 := with_env "AWS_SECRET_ACCESS_KEY" (AWS_SECRET_ACCESS_KEY config)
                (with_env "AWS_ACCESS_KEY_ID" (AWS_ACCESS_KEY_ID config) w) in
    match process_song_data (INPUT_DATA config) (OUTPUT_DATA config) w0 with
    | (Ok _, w1) => process_log_data (INPUT_DATA config) (OUTPUT_DATA config) w1
    | (Raise e, w1) => (Raise e, w1)
    end.
Proof. reflexivity. Qed.

(** * DISTINCT, joins and aggregates *)

Lemma elem_of_distinct {A} `{EqDecision A} (l : list A) x : x ∈ distinct l ↔ x ∈ l.
Proof. apply elem_of_remove_dups. Qed.

Lemma NoDup_distinct {A} `{EqDecision A} (l : list A) : NoDup (distinct l).
Proof. apply NoDup_remove_dups. Qed.

Lemma elem_of_select {A B} (f : A → B) (l : list A) y :
    y ∈ map f l ↔ ∃ x, x ∈ l ∧ y = f x.
  Proof.
    rewrite list_elem_of_In, in_map_iff.
    split; intros (x & H1 & H2); exists x.
    - by rewrite <- list_elem_of_In in H2.
    - by rewrite list_elem_of_In in H1.
  Qed.

Section Relational.
Context {A B : Type}.

Lemma elem_of_inner_join (on : A → B → option bool) l r a b :
  (a, b) ∈ inner_join on l r ↔ a ∈ l ∧ b ∈ r ∧ sql_holds (on a b) = true.
Proof.
  unfold inner_join. rewrite list_elem_of_In, in_flat_map. split.
  - intros (a' & Ha & Hin). apply list_elem_of_In in Ha, Hin.
    apply elem_of_select in Hin as (b' & Hb & [= -> ->]).
    apply list_elem_of_filter in Hb as [Hon Hb].
    by apply Is_true_true in Hon.
  - intros (Ha & Hb & Hon). exists a. rewrite <- !list_elem_of_In.
    split; [done|]. apply elem_of_select. exists b. split; [|done].
    apply list_elem_of_filter. by rewrite Hon.
Qed.
End Relational.

Lemma sql_eq_holds {A} `{EqDecision A} (x y : option A) :
  sql_holds (sql_eq x y) = true ↔ ∃ a, x = Some a ∧ y = Some a.
Proof.
  destruct x as [a|], y as [b|]; simpl; try (split; [done | by intros (? & ? & ?)]).
  case_bool_decide as Hab.
  - subst. split; [eauto | done].
  - split; [done|]. intros (? & [= ->] & [= ->]). done.
Qed.

Lemma sql_and_holds p q :
  sql_holds (sql_and p q) = true ↔ sql_holds p = true ∧ sql_holds q = true.
Proof. destruct p as [[]|], q as [[]|]; simpl; intuition discriminate. Qed.

Lemma sql_max_Some l m :
  sql_max l = Some m ↔ Some m ∈ l ∧ ∀ x, Some x ∈ l → x ≤ m.
Proof.
  revert m. induction l as [|[a|] l IH]; intros m; simpl.
  - split; [done|]. intros [H _]. by apply elem_of_nil in H.
  - destruct (sql_max l) as [b|] eqn:Hl.
    + specialize (IH b). destruct IH as [IH _]. destruct (IH eq_refl) as [Hb Hmax].
      split.
      * intros [= <-]. split.
        -- destruct (Z.max_spec a b) as [[_ ->]|[_ ->]]; [by right | by left].
        -- intros x [[= ->]|Hx]%elem_of_cons; [lia|]. specialize (Hmax x Hx). lia.
      * intros [[[= ->]|Hm]%elem_of_cons Hmax']; f_equal.
        -- assert (b ≤ a) by (apply Hmax'; by right). lia.
        -- assert (a ≤ m) by (apply Hmax'; by left).
           specialize (Hmax m Hm). assert (b ≤ m) by (apply Hmax'; by right). lia.
    + assert (Hnone : ∀ x, Some x ∉ l).
      { intros x Hx. clear IH. induction l as [|[c|] l IHl]; simpl in *.
        - by apply elem_of_nil in Hx.
        - by destruct (sql_max l).
        - apply elem_of_cons in Hx as [?|?]; [done|]. by apply IHl. }
      split.
      * intros [= <-]. split; [by left|].
        intros x [[= ->]|Hx]%elem_of_cons; [lia | by destruct (Hnone x)].
      * intros [[[= ->]|Hm]%elem_of_cons _]; [done | by destruct (Hnone m)].
  - rewrite IH. split; intros [H1 H2]; split.
    + by right.
    + intros x [?|?]%elem_of_cons; [done | by apply H2].
    + by apply elem_of_cons in H1 as [?|?].
    + intros x Hx. apply H2. by right.
Qed.

(** * The users query *)

Lemma elem_of_latest log u m :
  (u, m) ∈ latest log ↔
  u ∈ map LogData.userId log ∧
  m = sql_max (map LogData.ts (filter (λ r, LogData.userId r = u) log)).
Proof.
  unfold latest. rewrite elem_of_select. split.
  - intros (u' & Hu & [= -> ->]). rewrite elem_of_distinct in Hu. by split.
  - intros [Hu ->]. exists u. by rewrite elem_of_distinct.
Qed.

Lemma elem_of_ts_of_user log u t :
  Some t ∈ map LogData.ts (filter (λ r, LogData.userId r = Some u) log) ↔
  ∃ e, e ∈ log ∧ LogData.userId e = Some u ∧ LogData.ts e = Some t.
Proof.
  rewrite elem_of_select. split.
  - intros (e & [Hu He]%list_elem_of_filter & Ht). eauto.
  - intros (e & He & Hu & Ht). exists e. by rewrite list_elem_of_filter.
Qed.

Lemma sql_max_latest log u t :
  sql_max (map LogData.ts (filter (λ r, LogData.userId r = Some u) log)) = Some t ↔
  (∃ e, e ∈ log ∧ LogData.userId e = Some u ∧ LogData.ts e = Some t) ∧
  is_latest log u t.
Proof.
  rewrite sql_max_Some, elem_of_ts_of_user. unfold is_latest.
  split; intros [H1 H2]; (split; [done|]).
  - intros e t' He Hu Ht. apply H2, elem_of_ts_of_user. eauto.
  - intros x (e & He & Hu & Ht)%elem_of_ts_of_user. eauto.
Qed.

Lemma elem_of_select_users log r :
  r ∈ select_users log ↔
  ∃ e u t, e ∈ log ∧ r = users_row e ∧
           LogData.userId e = Some u ∧ LogData.ts e = Some t ∧ is_latest log u t.
Proof.
  unfold select_users. rewrite elem_of_distinct, elem_of_select. split.
  - intros ([s [u' m]] & [Hts Hjoin]%list_elem_of_filter & ->). cbn [fst snd] in *.
    apply elem_of_inner_join in Hjoin as (Hs & Hl & Hon). cbn [fst snd] in Hon.
    apply sql_eq_holds in Hon as (u & -> & Hu).
    apply Is_true_true, sql_eq_holds in Hts as (t & Ht & ->).
    apply elem_of_latest in Hl as [_ Hm]. symmetry in Hm.
    apply sql_max_latest in Hm as [_ Hmax].
    exists s, u, t. done.
  - intros (e & u & t & He & -> & Hu & Ht & Hmax).
    exists (e, (Some u, Some t)). split; [|done].
    apply list_elem_of_filter. cbn [fst snd]. split.
    + apply Is_true_true, sql_eq_holds. eauto.
    + apply elem_of_inner_join. split; [done|]. split.
      * apply elem_of_latest. split; [apply elem_of_select; eauto|].
        symmetry. apply sql_max_latest. eauto.
      * cbn [fst snd]. apply sql_eq_holds. eauto.
Qed.

Lemma select_users_one_row log u r1 r2 :
  (∀ e1 e2, e1 ∈ log → e2 ∈ log →
            LogData.userId e1 = Some u → LogData.userId e2 = Some u →
            LogData.ts e1 = LogData.ts e2 → users_row e1 = users_row e2) →
  r1 ∈ select_users log → r2 ∈ select_users log →
  Users.user_id r1 = Some u → Users.user_id r2 = Some u → r1 = r2.
Proof.
  intros Hagree (e1 & u1 & t1 & He1 & -> & Hu1 & Ht1 & Hmax1)%elem_of_select_users
         (e2 & u2 & t2 & He2 & -> & Hu2 & Ht2 & Hmax2)%elem_of_select_users Hr1 Hr2.
  simpl in Hr1, Hr2. rewrite Hu1 in Hr1. rewrite Hu2 in Hr2.
  injection Hr1 as ->. injection Hr2 as ->.
  apply Hagree; try done. rewrite Ht1, Ht2. f_equal.
  assert (t2 ≤ t1) by (by apply (Hmax1 e2)).
  assert (t1 ≤ t2) by (by apply (Hmax2 e1)). lia.
Qed.

Lemma select_users_some_row log e u t :
  e ∈ log → LogData.userId e = Some u → LogData.ts e = Some t →
  ∃ r, r ∈ select_users log ∧ Users.user_id r = Some u.
Proof.
  intros He Hu Ht.
  destruct (sql_max (map LogData.ts (filter (λ r, LogData.userId r = Some u) log)))
    as [m|] eqn:Hm.
  - apply sql_max_latest in Hm as [(e' & He' & Hu' & Ht') Hmax].
    exists (users_row e'). split; [|done].
    apply elem_of_select_users. exists e', u, m. done.
  - assert (Hin : Some t ∈ map LogData.ts (filter (λ r, LogData.userId r = Some u) log))
      by (apply elem_of_ts_of_user; eauto).
    exfalso. revert Hm Hin. generalize (map LogData.ts (filter (λ r, LogData.userId r = Some u) log)).
    intros l. induction l as [|[a|] l IH]; simpl.
    + intros _ H. by apply elem_of_nil in H.
    + by destruct (sql_max l).
    + intros Hm [?|?]%elem_of_cons; [done | auto].
Qed.

(** * Song catalog transform *)

(** C6: the songs and artists tables written by [process_song_data] hold
    no two equal rows, and each holds exactly the projections of the
    source records, so that duplicate records collapse to one row. *)
Theorem song_artist_rows_distinct input output w songs :
  json_files w !! path_join input "song_data" = Some (SongFiles songs) →
  ∃ w' srows arows,
    process_song_data input output w = (Ok (), w') ∧
    parquet_files w' !! path_join output "songs.parquet" =
      Some {| partitionBy := ["year"; "artist_id"]%string; contents := SongsTable srows |} ∧
    parquet_files w' !! path_join output "artists.parquet" =
      Some {| partitionBy := []; contents := ArtistsTable arows |} ∧
    NoDup srows ∧ NoDup arows ∧
    (∀ r, r ∈ srows ↔ ∃ s, s ∈ songs ∧ r = songs_row s) ∧
    (∀ r, r ∈ arows ↔ ∃ s, s ∈ songs ∧ r = artists_row s).
Proof.
  intros Hin. rewrite process_song_data_run, Hin.
  eexists _, (select_songs songs), (select_artists songs).
  split; [done|]. cbn [parquet_files with_parquet].
  split; [|split].
  - rewrite lookup_insert_ne by paths_ne. by rewrite lookup_insert_eq.
  - by rewrite lookup_insert_eq.
  - unfold select_songs, select_artists.
    repeat split; try apply NoDup_distinct;
      rewrite elem_of_distinct, elem_of_select; done.
Qed.

Lemma song_artist_rows_distinct_witness :
  ∃ w' srows arows,
    process_song_data "in" "out" (sample_world catalog_twice [] []) = (Ok (), w') ∧
    parquet_files w' !! path_join "out" "songs.parquet" =
      Some {| partitionBy := ["year"; "artist_id"]%string; contents := SongsTable srows |} ∧
    parquet_files w' !! path_join "out" "artists.parquet" =
      Some {| partitionBy := []; contents := ArtistsTable arows |} ∧
    NoDup srows ∧ NoDup arows ∧
    (∀ r, r ∈ srows ↔ ∃ s, s ∈ catalog_twice ∧ r = songs_row s) ∧
    (∀ r, r ∈ arows ↔ ∃ s, s ∈ catalog_twice ∧ r = artists_row s).
Proof.
  apply (song_artist_rows_distinct "in" "out" (sample_world catalog_twice [] [])).
  vm_compute. reflexivity.
Defined.

(** * Event log transform: the users table *)

Lemma process_log_data_users input output w recs :
  json_files w !! path_join input "log_data" = Some (LogFiles recs) →
  parquet_files (process_log_data input output w).2 !! path_join output "users.parquet" =
    Some {| partitionBy := [];
            contents := UsersTable (select_users (filter_next_song recs)) |}.
Proof.
  intros Hin. rewrite (process_log_data_run_log _ _ _ _ Hin). cbv zeta.
  destruct (with_start_time _) as [lts|e]; [|cbn; by rewrite lookup_insert_eq].
  destruct (temp_views w !! "song_data"%string) as [[| |]|]; cbn;
    rewrite ?(lookup_insert_ne _ (path_join output "songplays.parquet")) by paths_ne;
    rewrite lookup_insert_ne by paths_ne; by rewrite lookup_insert_eq.
Qed.

(** C2, as amended: the users table has no duplicate rows and holds
    exactly the projections of the play events that carry a user id and
    whose [ts] is the greatest of that user; a user has one row as soon as
    the events at that greatest [ts] agree on the projected columns. *)
Theorem users_latest_rows input output w recs :
  json_files w !! path_join input "log_data" = Some (LogFiles recs) →
  let log := filter_next_song recs in
  ∃ rows,
    parquet_files (process_log_data input output w).2 !! path_join output "users.parquet" =
      Some {| partitionBy := []; contents := UsersTable rows |} ∧
    NoDup rows ∧
    (∀ r, r ∈ rows ↔
          ∃ e u t, e ∈ log ∧ r = users_row e ∧ LogData.userId e = Some u ∧
                   LogData.ts e = Some t ∧ is_latest log u t) ∧
    (∀ e u t, e ∈ log → LogData.userId e = Some u → LogData.ts e = Some t →
              ∃ r, r ∈ rows ∧ Users.user_id r = Some u) ∧
    (∀ u, (∀ e1 e2, e1 ∈ log → e2 ∈ log →
                    LogData.userId e1 = Some u → LogData.userId e2 = Some u →
                    LogData.ts e1 = LogData.ts e2 → users_row e1 = users_row e2) →
          ∀ r1 r2, r1 ∈ rows → r2 ∈ rows →
                   Users.user_id r1 = Some u → Users.user_id r2 = Some u → r1 = r2).
Proof.
  intros Hin log. exists (select_users log). split; [by apply process_log_data_users|].
  split; [apply NoDup_distinct|].
  split; [apply elem_of_select_users|].
  split; [apply select_users_some_row|].
  intros u Hagree r1 r2. by apply select_users_one_row.
Qed.

Lemma users_latest_rows_witness :
  ∃ rows,
    parquet_files (process_log_data "in" "out" (sample_world [] events_upgrade [])).2
      !! path_join "out" "users.parquet" =
      Some {| partitionBy := []; contents := UsersTable rows |} ∧
    NoDup rows ∧
    (∀ r, r ∈ rows ↔
          ∃ e u t, e ∈ filter_next_song events_upgrade ∧ r = users_row e ∧
                   LogData.userId e = Some u ∧ LogData.ts e = Some t ∧
                   is_latest (filter_next_song events_upgrade) u t) ∧
    (∀ e u t, e ∈ filter_next_song events_upgrade →
              LogData.userId e = Some u → LogData.ts e = Some t →
              ∃ r, r ∈ rows ∧ Users.user_id r = Some u) ∧
    (∀ u, (∀ e1 e2, e1 ∈ filter_next_song events_upgrade →
                    e2 ∈ filter_next_song events_upgrade →
                    LogData.userId e1 = Some u → LogData.userId e2 = Some u →
                    LogData.ts e1 = LogData.ts e2 → users_row e1 = users_row e2) →
          ∀ r1 r2, r1 ∈ rows → r2 ∈ rows →
                   Users.user_id r1 = Some u → Users.user_id r2 = Some u → r1 = r2).
Proof.
  apply (users_latest_rows "in" "out" (sample_world [] events_upgrade []) events_upgrade).
  vm_compute. reflexivity.
Defined.

(** C2, as stated, fails: with two play events of one user at the same
    greatest [ts] and different levels, the users table has two rows for
    that user. *)
Lemma users_one_row_per_user_counterexample :
  ¬ (∀ rows,
       parquet_files (process_log_data "in" "out" (sample_world [] events_tie [])).2
         !! path_join "out" "users.parquet" =
         Some {| partitionBy := []; contents := UsersTable rows |} →
       ∀ r1 r2, r1 ∈ rows → r2 ∈ rows →
                Users.user_id r1 = Users.user_id r2 → r1 = r2).
Proof.
  intros H.
  specialize (H _ (process_log_data_users "in" "out" (sample_world [] events_tie [])
                     events_tie eq_refl)
                (users_row (sample_event "10" "free" 200 "NextSong" "Foo" "Bar"))
                (users_row (sample_event "10" "paid" 200 "NextSong" "Foo" "Bar"))).
  assert (Hin : ∀ r : Users.row, r ∈ select_users (filter_next_song events_tie) ↔
                  r ∈ [users_row (sample_event "10" "free" 200 "NextSong" "Foo" "Bar");
                       users_row (sample_event "10" "paid" 200 "NextSong" "Foo" "Bar")])
    by (vm_compute select_users; done).
  rewrite !Hin in H. discriminate H; [by left | by right; left | done].
Qed.

(** The scenario of the specification: user 10 with a "free" event at
    [ts = 100] and a "paid" event at [ts = 200] gets one row, "paid". *)
Example users_scenario_upgrade :
  select_users (filter_next_song events_upgrade) =
    [users_row (sample_event "10" "paid" 200 "NextSong" "Foo" "bar")].
Proof. vm_compute. reflexivity. Qed.

(** * Event log transform: the filter *)

Lemma filter_next_song_drop l1 e l2 :
  LogData.page e ≠ Some "NextSong"%string →
  filter_next_song (l1 ++ e :: l2) = filter_next_song (l1 ++ l2).
Proof.
  intros Hpage. unfold filter_next_song. rewrite !filter_app. f_equal.
  apply filter_cons_False. intros H. apply Is_true_true, sql_eq_holds in H.
  destruct H as (a & Ha & Hb). congruence.
Qed.

Lemma elem_of_filter_next_song df e :
  e ∈ filter_next_song df ↔ e ∈ df ∧ LogData.page e = Some "NextSong"%string.
Proof.
  unfold filter_next_song. rewrite list_elem_of_filter, Is_true_true, sql_eq_holds.
  split.
  - intros [(a & Ha & Hb) He]. split; [done | congruence].
  - intros [He Hp]. eauto.
Qed.

(** The outcome of [main] is a function of the play events alone, as far
    as the event log goes. *)
Lemma main_log_congruence config w recs1 recs2 :
  filter_next_song recs1 = filter_next_song recs2 →
  let p := path_join (INPUT_DATA config) "log_data" in
  let r1 := main config (with_json p (LogFiles recs1) w) in
  let r2 := main config (with_json p (LogFiles recs2) w) in
  r1.1 = r2.1 ∧ parquet_files r1.2 = parquet_files r2.2 ∧ temp_views r1.2 = temp_views r2.2.
Proof.
  intros Hfilter p r1 r2. subst r1 r2. rewrite !main_unfold. cbv zeta.
  rewrite !process_song_data_run. cbn [json_files with_env with_json].
  rewrite !(lookup_insert_ne _ p) by (subst p; paths_ne).
  destruct (json_files w !! path_join (INPUT_DATA config) "song_data")
    as [[songs|recs]|]; [| done | done].
  rewrite (process_log_data_run_log _ _ _ recs1)
    by (cbn [json_files with_parquet with_view with_env with_json];
        apply lookup_insert_eq).
  rewrite (process_log_data_run_log _ _ _ recs2)
    by (cbn [json_files with_parquet with_view with_env with_json];
        apply lookup_insert_eq).
  cbv zeta. rewrite Hfilter.
  cbn [timezone with_parquet with_view with_env with_json].
  destruct (with_start_time (timezone w) (filter_next_song recs2)) as [lts|e]; [|done].
  cbn [temp_views with_parquet with_view with_env with_json].
  rewrite lookup_insert_eq. done.
Qed.

(** C5: an event whose page is not "NextSong" leaves no trace in any
    table: the pipeline gives the same result and the same tables (and
    the same views) whether the event is in the log or not. *)
Theorem non_play_events_ignored config w l1 e l2 :
  LogData.page e ≠ Some "NextSong"%string →
  let p := path_join (INPUT_DATA config) "log_data" in
  let r1 := main config (with_json p (LogFiles (l1 ++ e :: l2)) w) in
  let r2 := main config (with_json p (LogFiles (l1 ++ l2)) w) in
  (e ∉ filter_next_song (l1 ++ e :: l2)) ∧
  filter_next_song (l1 ++ e :: l2) = filter_next_song (l1 ++ l2) ∧
  r1.1 = r2.1 ∧ parquet_files r1.2 = parquet_files r2.2.
Proof.
  intros Hpage p r1 r2. split; [|split].
  - by intros [_ ?]%elem_of_filter_next_song.
  - by apply filter_next_song_drop.
  - destruct (main_log_congruence config w (l1 ++ e :: l2) (l1 ++ l2)) as (? & ? & _);
      [by apply filter_next_song_drop | done].
Qed.

Lemma non_play_events_ignored_witness :
  let e := sample_event "11" "paid" 1500 "Home" "Foo" "Bar" in
  let p := path_join (INPUT_DATA sample_config) "log_data" in
  let r1 := main sample_config
              (with_json p (LogFiles (events_upgrade ++ e :: events_tie))
                 (sample_world catalog_twice [] [])) in
  let r2 := main sample_config
              (with_json p (LogFiles (events_upgrade ++ events_tie))
                 (sample_world catalog_twice [] [])) in
  (e ∉ filter_next_song (events_upgrade ++ e :: events_tie)) ∧
  filter_next_song (events_upgrade ++ e :: events_tie) =
    filter_next_song (events_upgrade ++ events_tie) ∧
  r1.1 = r2.1 ∧ parquet_files r1.2 = parquet_files r2.2.
Proof.
  apply (non_play_events_ignored sample_config (sample_world catalog_twice [] [])
           events_upgrade (sample_event "11" "paid" 1500 "Home" "Foo" "Bar") events_tie).
  discriminate.
Defined.

(** * Event log transform: the time table *)

Lemma with_start_time_Ok tz log lts :
  with_start_time tz log = Ok lts →
  map LogTs.log lts = log ∧
  Forall (λ l, get_timestamp tz (LogData.ts (LogTs.log l)) = Ok (LogTs.start_time l)) lts.
Proof.
  revert lts. induction log as [|r log IH]; intros lts; simpl.
  - intros [= <-]. done.
  - destruct (get_timestamp tz (LogData.ts r)) as [t|e] eqn:Ht; [|done].
    destruct (with_start_time tz log) as [rows|e]; [|done].
    intros [= <-]. destruct (IH rows eq_refl) as [Hlog Hall]. split.
    + simpl. by rewrite Hlog.
    + by constructor.
Qed.

Lemma process_log_data_time input output w recs lts :
  json_files w !! path_join input "log_data" = Some (LogFiles recs) →
  with_start_time (timezone w) (filter_next_song recs) = Ok lts →
  parquet_files (process_log_data input output w).2 !! path_join output "time.parquet" =
    Some {| partitionBy := ["year"; "month"]%string;
            contents := TimeTable (select_time (timezone w) lts) |}.
Proof.
  intros Hin Hts. rewrite (process_log_data_run_log _ _ _ _ Hin). cbv zeta.
  rewrite Hts.
  destruct (temp_views w !! "song_data"%string) as [[| |]|]; cbn;
    rewrite ?(lookup_insert_ne _ (path_join output "songplays.parquet")) by paths_ne;
    by rewrite lookup_insert_eq.
Qed.

Lemma select_time_rows tz lts r :
  r ∈ select_time tz lts ↔ ∃ l, l ∈ lts ∧ r = time_row tz (LogTs.start_time l).
Proof. unfold select_time. by rewrite elem_of_distinct, elem_of_select. Qed.

Lemma select_time_NoDup tz lts : NoDup (map Time.start_time (select_time tz lts)).
Proof.
  apply (NoDup_fmap_2_strong Time.start_time); [|apply NoDup_distinct].
  intros r1 r2 (l1 & _ & ->)%select_time_rows (l2 & _ & ->)%select_time_rows.
  simpl. by intros ->.
Qed.

(** C7: every row of the time table is [start_time] together with the
    calendar functions applied to that very [start_time], and no two rows
    share a [start_time]. *)
Theorem time_rows_functions_of_start_time input output w recs lts :
  json_files w !! path_join input "log_data" = Some (LogFiles recs) →
  with_start_time (timezone w) (filter_next_song recs) = Ok lts →
  ∃ rows,
    parquet_files (process_log_data input output w).2 !! path_join output "time.parquet" =
      Some {| partitionBy := ["year"; "month"]%string; contents := TimeTable rows |} ∧
    (∀ r, r ∈ rows →
          Time.hour r = hour (timezone w) (Time.start_time r) ∧
          Time.day r = dayofmonth (timezone w) (Time.start_time r) ∧
          Time.week r = weekofyear (timezone w) (Time.start_time r) ∧
          Time.month r = month (timezone w) (Time.start_time r) ∧
          Time.year r = year (timezone w) (Time.start_time r) ∧
          Time.weekday r = dayofweek (timezone w) (Time.start_time r)) ∧
    (∀ t, t ∈ map Time.start_time rows ↔ ∃ l, l ∈ lts ∧ t = LogTs.start_time l) ∧
    NoDup (map Time.start_time rows).
Proof.
  intros Hin Hts. exists (select_time (timezone w) lts).
  split; [by apply (process_log_data_time _ _ _ recs)|].
  split; [|split; [|apply select_time_NoDup]].
  - by intros r (l & _ & ->)%select_time_rows.
  - intros t. rewrite elem_of_select. split.
    + intros (r & (l & Hl & ->)%select_time_rows & ->). eauto.
    + intros (l & Hl & ->). exists (time_row (timezone w) (LogTs.start_time l)).
      split; [|done]. apply select_time_rows. eauto.
Qed.

Lemma time_rows_functions_of_start_time_witness :
  ∃ rows,
    parquet_files (process_log_data "in" "out" (sample_world [] events_upgrade [])).2
      !! path_join "out" "time.parquet" =
      Some {| partitionBy := ["year"; "month"]%string; contents := TimeTable rows |} ∧
    (∀ r, r ∈ rows →
          Time.hour r = hour utc (Time.start_time r) ∧
          Time.day r = dayofmonth utc (Time.start_time r) ∧
          Time.week r = weekofyear utc (Time.start_time r) ∧
          Time.month r = month utc (Time.start_time r) ∧
          Time.year r = year utc (Time.start_time r) ∧
          Time.weekday r = dayofweek utc (Time.start_time r)) ∧
    (∀ t, t ∈ map Time.start_time rows ↔
          ∃ l, l ∈ [ {| LogTs.log := sample_event "10" "free" 100 "NextSong" "Foo" "Bar";
                        LogTs.start_time := 100000 |};
                     {| LogTs.log := sample_event "10" "paid" 200 "NextSong" "Foo" "bar";
                        LogTs.start_time := 200000 |} ] ∧ t = LogTs.start_time l) ∧
    NoDup (map Time.start_time rows).
Proof.
  apply (time_rows_functions_of_start_time "in" "out"
           (sample_world [] events_upgrade []) events_upgrade).
  - vm_compute. reflexivity.
  - vm_compute. reflexivity.
Defined.

(** The calendar columns at 2018-11-15 00:30:26.796 UTC, a Thursday in ISO
    week 46. *)
Example time_row_2018_11_15 :
  time_row utc 1542241826796000 =
    {| Time.start_time := 1542241826796000; Time.hour := 0; Time.day := 15;
       Time.week := 46; Time.month := 11; Time.year := 2018; Time.weekday := 5 |}.
Proof. vm_compute. reflexivity. Qed.

(** The same instant on a machine in the Pacific time zone:
    2018-11-14 16:30:26.796, a Wednesday. *)
Example time_row_2018_11_14_pacific :
  time_row pacific 1542241826796000 =
    {| Time.start_time := 1542241826796000; Time.hour := 16; Time.day := 14;
       Time.week := 46; Time.month := 11; Time.year := 2018; Time.weekday := 4 |}.
Proof. vm_compute. reflexivity. Qed.

(** * The whole pipeline on well-formed input *)

Lemma main_run config w songs recs lts :
  json_files w !! path_join (INPUT_DATA config) "song_data" = Some (SongFiles songs) →
  json_files w !! path_join (INPUT_DATA config) "log_data" = Some (LogFiles recs) →
  with_start_time (timezone w) (filter_next_song recs) = Ok lts →
  ∃ w',
    main config w = (Ok (), w') ∧
    json_files w' = json_files w ∧
    shuffle w' = shuffle w ∧
    parquet_files w' =
      <[path_join (OUTPUT_DATA config) "songplays.parquet" :=
          {| partitionBy := ["year"; "month"]%string;
             contents := SongplaysTable
                           (with_songplay_id
                              (partitions (shuffle w) (select_song_df (timezone w) lts songs))) |}]>
      (<[path_join (OUTPUT_DATA config) "time.parquet" :=
           {| partitionBy := ["year"; "month"]%string;
              contents := TimeTable (select_time (timezone w) lts) |}]>
       (<[path_join (OUTPUT_DATA config) "users.parquet" :=
            {| partitionBy := [];
               contents := UsersTable (select_users (filter_next_song recs)) |}]>
        (<[path_join (OUTPUT_DATA config) "artists.parquet" :=
             {| partitionBy := []; contents := ArtistsTable (select_artists songs) |}]>
         (<[path_join (OUTPUT_DATA config) "songs.parquet" :=
              {| partitionBy := ["year"; "artist_id"]%string;
                 contents := SongsTable (select_songs songs) |}]>
          (parquet_files w))))).
Proof.
  intros Hsongs Hlogs Hts. rewrite main_unfold. cbv zeta.
  rewrite process_song_data_run. cbn [json_files with_env]. rewrite Hsongs.
  rewrite (process_log_data_run_log _ _ _ recs) by done.
  cbv zeta. cbn [timezone with_parquet with_view with_env].
  rewrite Hts. cbn [temp_views with_parquet with_view].
  rewrite lookup_insert_eq. eexists. split; [done|]. done.
Qed.

(** A failing run of [main] writes no songplays table; a run that
    returns has read both inputs and computed every [start_time]. *)
Lemma main_Ok_inv config w w' :
  main config w = (Ok (), w') →
  ∃ songs recs lts,
    json_files w !! path_join (INPUT_DATA config) "song_data" = Some (SongFiles songs) ∧
    json_files w !! path_join (INPUT_DATA config) "log_data" = Some (LogFiles recs) ∧
    with_start_time (timezone w) (filter_next_song recs) = Ok lts.
Proof.
  rewrite main_unfold. cbv zeta. rewrite process_song_data_run.
  cbn [json_files with_env].
  destruct (json_files w !! path_join (INPUT_DATA config) "song_data")
    as [[songs|?]|] eqn:Hsongs; [|done|done].
  destruct (json_files w !! path_join (INPUT_DATA config) "log_data")
    as [[?|recs]|] eqn:Hlogs.
  - match goal with
    | |- process_log_data ?i ?o ?w1 = _ → _ =>
        assert (Hother : ∀ recs, json_files w1 !! path_join i "log_data" ≠ Some (LogFiles recs))
          by (intros recs; cbn [json_files with_parquet with_view with_env];
              by rewrite Hlogs);
        destruct (process_log_data_run_other i o w1 Hother) as [e ->]
    end.
    done.
  - rewrite (process_log_data_run_log _ _ _ recs) by done. cbv zeta.
    cbn [timezone with_parquet with_view with_env].
    destruct (with_start_time (timezone w) (filter_next_song recs)) as [lts|e] eqn:Hts;
      [|done].
    intros _. by exists songs, recs, lts.
  - match goal with
    | |- process_log_data ?i ?o ?w1 = _ → _ =>
        assert (Hother : ∀ recs, json_files w1 !! path_join i "log_data" ≠ Some (LogFiles recs))
          by (intros recs; cbn [json_files with_parquet with_view with_env];
              by rewrite Hlogs);
        destruct (process_log_data_run_other i o w1 Hother) as [e ->]
    end.
    done.
Qed.


(** * The songplays join *)

Lemma select_song_df_flat_map tz lts songs :
  select_song_df tz lts songs = flat_map (songplays_of tz songs) lts.
Proof.
  unfold select_song_df, inner_join, songplays_of.
  induction lts as [|l lts IH]; simpl; [done|].
  rewrite map_app, IH. f_equal. by rewrite map_map.
Qed.

Lemma song_match_holds l s : sql_holds (song_match l s) = true ↔ exact_match l s.
Proof.
  unfold song_match, exact_match. rewrite sql_and_holds, !sql_eq_holds.
  split.
  - intros [(t & -> & ->) (a & -> & ->)]. by repeat split.
  - intros ([t Ht] & [a Ha] & Htitle & Hname). rewrite Htitle, Hname, Ht, Ha.
    split; eexists; done.
Qed.

Lemma songplays_of_filter tz songs l :
  songplays_of tz songs l = map (song_df_row tz l) (filter (exact_match l) songs).
Proof.
  unfold songplays_of. f_equal. apply list_filter_iff. intros s.
  by rewrite Is_true_true, song_match_holds.
Qed.

(** * Partitions and row identifiers *)

Lemma partitions_concat {A} cuts (rows : list A) : concat (partitions cuts rows) = rows.
Proof.
  revert rows. induction cuts as [|n cuts IH]; intros rows; simpl.
  - apply app_nil_r.
  - by rewrite IH, take_drop.
Qed.

Lemma length_partitions {A} cuts (rows : list A) :
  length (partitions cuts rows) = S (length cuts).
Proof. revert rows. induction cuts as [|n cuts IH]; intros rows; simpl; auto. Qed.

Lemma number_ext id1 id2 parts :
  (∀ p k, id1 p k = id2 p k) → number id1 parts = number id2 parts.
Proof.
  intros Hid. unfold number. f_equal. apply imap_ext. intros p rows _.
  apply imap_ext. intros k r _. by rewrite Hid.
Qed.

Lemma number_cons id rows parts :
  number id (rows :: parts) =
    imap (λ k r, {| Songplays.play := r; Songplays.songplay_id := id 0%nat k |}) rows
    ++ number (λ p, id (S p)) parts.
Proof. reflexivity. Qed.

Lemma play_imap (g : nat → Z) rows :
  map Songplays.play
    (imap (λ k r, {| Songplays.play := r; Songplays.songplay_id := g k |}) rows) = rows.
Proof.
  revert g. induction rows as [|r rows IH]; intros g; simpl; [done|].
  f_equal. apply (IH (g ∘ S)).
Qed.

Lemma id_imap (g : nat → Z) (rows : list SongDf.row) :
  map Songplays.songplay_id
    (imap (λ k r, {| Songplays.play := r; Songplays.songplay_id := g k |}) rows) =
  map g (seq 0 (length rows)).
Proof.
  revert g. induction rows as [|r rows IH]; intros g; simpl; [done|].
  f_equal. rewrite <- seq_shift, map_map. apply (IH (g ∘ S)).
Qed.

Lemma play_number id parts : map Songplays.play (number id parts) = concat parts.
Proof.
  revert id. induction parts as [|rows parts IH]; intros id; [done|].
  rewrite number_cons, map_app, play_imap, IH. done.
Qed.

Lemma with_songplay_id_number parts : with_songplay_id parts = number row_id parts.
Proof. reflexivity. Qed.

Lemma play_with_songplay_id cuts rows :
  map Songplays.play (with_songplay_id (partitions cuts rows)) = rows.
Proof. by rewrite with_songplay_id_number, play_number, partitions_concat. Qed.

Lemma wrap64_inj x y :
  0 ≤ x < 2 ^ 64 → 0 ≤ y < 2 ^ 64 → wrap64 x = wrap64 y → x = y.
Proof. unfold wrap64. intros Hx Hy H. Z.div_mod_to_equations. lia. Qed.

Lemma row_id_inj p k p' k' :
  Z.of_nat p < 2 ^ 31 → Z.of_nat p' < 2 ^ 31 →
  Z.of_nat k < 2 ^ 33 → Z.of_nat k' < 2 ^ 33 →
  row_id p k = row_id p' k' → p = p' ∧ k = k'.
Proof.
  unfold row_id. rewrite !Z.shiftl_mul_pow2 by lia. intros Hp Hp' Hk Hk' H.
  apply wrap64_inj in H; lia.
Qed.

Lemma elem_of_number_id id parts x :
  x ∈ map Songplays.songplay_id (number id parts) →
  ∃ p rows k, parts !! p = Some rows ∧ (k < length rows)%nat ∧ x = id p k.
Proof.
  revert id. induction parts as [|rows parts IH]; intros id.
  - intros H. by apply elem_of_nil in H.
  - rewrite number_cons, map_app, id_imap. intros [Hx|Hx]%elem_of_app.
    + apply elem_of_select in Hx as (k & Hk & ->).
      apply list_elem_of_In, in_seq in Hk. exists 0%nat, rows, k. split; [done|]. split; [lia|done].
    + apply IH in Hx as (p & rows' & k & Hp & Hk & ->). by exists (S p), rows', k.
Qed.

Lemma NoDup_number_id (off : nat) parts :
  Z.of_nat off + Z.of_nat (length parts) ≤ 2 ^ 31 →
  Forall (λ part : list SongDf.row, Z.of_nat (length part) ≤ 2 ^ 33) parts →
  NoDup (map Songplays.songplay_id (number (λ p, row_id (off + p)) parts)).
Proof.
  revert off. induction parts as [|rows parts IH]; intros off Hlen Hall.
  - constructor.
  - apply Forall_cons in Hall as [Hrows Hall]. simpl in Hlen.
    rewrite number_cons, map_app, id_imap. apply NoDup_app. split; [|split].
    + apply NoDup_fmap_2_strong; [|apply NoDup_seq].
      intros k k' Hk%list_elem_of_In%in_seq Hk'%list_elem_of_In%in_seq Heq.
      apply row_id_inj in Heq; lia.
    + intros x (k & Hk%list_elem_of_In%in_seq & ->)%elem_of_select Hx.
      apply elem_of_number_id in Hx as (p & rows' & k' & Hp & Hk' & Heq).
      pose proof (Forall_lookup_1 _ _ _ _ Hall Hp) as Hrows'. simpl in Hrows'.
      apply lookup_lt_Some in Hp.
      apply row_id_inj in Heq; lia.
    + rewrite (number_ext _ (λ p, row_id (S off + p))).
      * apply IH; [lia | done].
      * intros p k. f_equal. lia.
Qed.

(** * The songplays table *)

Lemma songplays_of_nonempty tz songs l :
  songplays_of tz songs l ≠ [] ↔ ∃ s, s ∈ songs ∧ exact_match l s.
Proof.
  rewrite songplays_of_filter. split.
  - destruct (filter (exact_match l) songs) as [|s rest] eqn:Hf; [done|]. intros _.
    assert (Hs : s ∈ filter (exact_match l) songs) by (rewrite Hf; by left).
    apply list_elem_of_filter in Hs as [? ?]. eauto.
  - intros (s & Hs & Hm) Hnil.
    assert (Hin : s ∈ filter (exact_match l) songs) by (by apply list_elem_of_filter).
    destruct (filter (exact_match l) songs); [by apply elem_of_nil in Hin | done].
Qed.

Lemma songplays_of_app tz s1 s2 l :
  songplays_of tz (s1 ++ s2) l = songplays_of tz s1 l ++ songplays_of tz s2 l.
Proof. unfold songplays_of. by rewrite filter_app, map_app. Qed.

Lemma songplays_of_one tz s l : (length (songplays_of tz [s] l) ≤ 1)%nat.
Proof.
  rewrite songplays_of_filter.
  destruct (decide (exact_match l s)) as [Hm|Hm].
  - by rewrite filter_cons_True.
  - rewrite filter_cons_False by done. simpl. lia.
Qed.

Lemma songplays_of_null tz songs l :
  LogData.song (LogTs.log l) = None ∨ LogData.artist (LogTs.log l) = None →
  songplays_of tz songs l = [].
Proof.
  intros Hnull. destruct (songplays_of tz songs l) eqn:Hrows; [done|].
  assert (Hne : songplays_of tz songs l ≠ []) by (by rewrite Hrows).
  apply songplays_of_nonempty in Hne as (s & _ & [t Ht] & [a Ha] & _).
  destruct Hnull; congruence.
Qed.

(** C3: the songplays table, apart from the identifiers, is made of the
    rows of each play event in turn; an event has rows exactly when some
    catalog record carries its song title and artist name, never when its
    song or artist is NULL; the run succeeds whatever matches; and the
    rows of an event are one per matching catalog record, so that a single
    record gives at most one of them. *)
Theorem songplays_iff_exact_match config w songs recs lts :
  json_files w !! path_join (INPUT_DATA config) "song_data" = Some (SongFiles songs) →
  json_files w !! path_join (INPUT_DATA config) "log_data" = Some (LogFiles recs) →
  with_start_time (timezone w) (filter_next_song recs) = Ok lts →
  ∃ w' rows,
    main config w = (Ok (), w') ∧
    parquet_files w' !! path_join (OUTPUT_DATA config) "songplays.parquet" =
      Some {| partitionBy := ["year"; "month"]%string; contents := SongplaysTable rows |} ∧
    map LogTs.log lts = filter_next_song recs ∧
    map Songplays.play rows = flat_map (songplays_of (timezone w) songs) lts ∧
    (∀ l, songplays_of (timezone w) songs l ≠ [] ↔ ∃ s, s ∈ songs ∧ exact_match l s) ∧
    (∀ l, LogData.song (LogTs.log l) = None ∨ LogData.artist (LogTs.log l) = None →
          songplays_of (timezone w) songs l = []) ∧
    (∀ l s1 s2, songplays_of (timezone w) (s1 ++ s2) l = songplays_of (timezone w) s1 l ++ songplays_of (timezone w) s2 l) ∧
    (∀ l s, (length (songplays_of (timezone w) [s] l) ≤ 1)%nat).
Proof.
  intros Hsongs Hlogs Hts.
  destruct (main_run config w songs recs lts) as (w' & Hrun & _ & _ & Hfiles); try done.
  exists w', (with_songplay_id (partitions (shuffle w) (select_song_df (timezone w) lts songs))).
  split; [done|]. split; [by rewrite Hfiles, lookup_insert_eq|].
  split; [by apply with_start_time_Ok in Hts as [? _]|].
  split; [by rewrite play_with_songplay_id, select_song_df_flat_map|].
  split; [apply songplays_of_nonempty|].
  split; [apply songplays_of_null|].
  split; [intros; apply songplays_of_app | intros; apply songplays_of_one].
Qed.

Lemma songplays_iff_exact_match_witness :
  ∃ w' rows,
    main sample_config (sample_world catalog_twice events_plays [2%nat]) = (Ok (), w') ∧
    parquet_files w' !! path_join (OUTPUT_DATA sample_config) "songplays.parquet" =
      Some {| partitionBy := ["year"; "month"]%string; contents := SongplaysTable rows |} ∧
    map LogTs.log events_plays_ts = filter_next_song events_plays ∧
    map Songplays.play rows = flat_map (songplays_of utc catalog_twice) events_plays_ts ∧
    (∀ l, songplays_of utc catalog_twice l ≠ [] ↔ ∃ s, s ∈ catalog_twice ∧ exact_match l s) ∧
    (∀ l, LogData.song (LogTs.log l) = None ∨ LogData.artist (LogTs.log l) = None →
          songplays_of utc catalog_twice l = []) ∧
    (∀ l s1 s2, songplays_of utc (s1 ++ s2) l = songplays_of utc s1 l ++ songplays_of utc s2 l) ∧
    (∀ l s, (length (songplays_of utc [s] l) ≤ 1)%nat).
Proof.
  apply (songplays_iff_exact_match sample_config
           (sample_world catalog_twice events_plays [2%nat]) catalog_twice events_plays).
  - vm_compute. reflexivity.
  - vm_compute. reflexivity.
  - vm_compute. reflexivity.
Defined.

(** The scenario of the specification: the catalog has "Foo" by "Bar";
    a play of "Foo" by "bar" gives no row, a play of "Foo" by "Bar" gives a
    row for each of the two copies of the record. *)
Example songplays_scenario_case :
  map (λ l, length (songplays_of utc catalog_twice l)) events_plays_ts = [2; 0; 0]%nat.
Proof. vm_compute. reflexivity. Qed.

(** C10: the catalog joined with the events is the list of the records
    as read, duplicates included, and a play event has as many songplays
    rows as there are records with its song title and artist name. *)
Theorem songplays_count_matches config w songs recs lts :
  json_files w !! path_join (INPUT_DATA config) "song_data" = Some (SongFiles songs) →
  json_files w !! path_join (INPUT_DATA config) "log_data" = Some (LogFiles recs) →
  with_start_time (timezone w) (filter_next_song recs) = Ok lts →
  ∃ w' rows,
    main config w = (Ok (), w') ∧
    parquet_files w' !! path_join (OUTPUT_DATA config) "songplays.parquet" =
      Some {| partitionBy := ["year"; "month"]%string; contents := SongplaysTable rows |} ∧
    map Songplays.play rows = flat_map (songplays_of (timezone w) songs) lts ∧
    length rows = length (flat_map (songplays_of (timezone w) songs) lts) ∧
    (∀ l, length (songplays_of (timezone w) songs l) = length (filter (exact_match l) songs)) ∧
    (∀ l1 l l2, lts = l1 ++ l :: l2 →
       ∃ rows1 rows_l rows2,
         rows = rows1 ++ rows_l ++ rows2 ∧
         map Songplays.play rows_l = songplays_of (timezone w) songs l ∧
         length rows_l = length (filter (exact_match l) songs)).
Proof.
  intros Hsongs Hlogs Hts.
  destruct (main_run config w songs recs lts) as (w' & Hrun & _ & _ & Hfiles); try done.
  set (rows := with_songplay_id (partitions (shuffle w) (select_song_df (timezone w) lts songs))).
  assert (Hplay : map Songplays.play rows = flat_map (songplays_of (timezone w) songs) lts)
    by (subst rows; by rewrite play_with_songplay_id, select_song_df_flat_map).
  assert (Hcount : ∀ l, length (songplays_of (timezone w) songs l) = length (filter (exact_match l) songs))
    by (intros l; by rewrite songplays_of_filter, length_map).
  exists w', rows.
  split; [done|]. split; [by rewrite Hfiles, lookup_insert_eq|].
  split; [done|]. split; [by rewrite <- Hplay, length_map|]. split; [done|].
  intros l1 l l2 ->. rewrite flat_map_app in Hplay. simpl in Hplay.
  set (n1 := length (flat_map (songplays_of (timezone w) songs) l1)).
  set (n := length (songplays_of (timezone w) songs l)).
  exists (take n1 rows), (take n (drop n1 rows)), (drop n (drop n1 rows)).
  split; [by rewrite !take_drop|].
  assert (Hmid : map Songplays.play (take n (drop n1 rows)) = songplays_of (timezone w) songs l).
  { change (map Songplays.play (take n (drop n1 rows)))
      with (Songplays.play <$> take n (drop n1 rows)).
    rewrite fmap_take, fmap_drop.
    change (Songplays.play <$> rows) with (map Songplays.play rows).
    rewrite Hplay. subst n n1. by rewrite drop_app_length, take_app_length. }
  split; [done|]. rewrite <- Hcount. apply (f_equal length) in Hmid.
  by rewrite length_map in Hmid.
Qed.

Lemma songplays_count_matches_witness :
  ∃ w' rows,
    main sample_config (sample_world catalog_twice events_plays [2%nat]) = (Ok (), w') ∧
    parquet_files w' !! path_join (OUTPUT_DATA sample_config) "songplays.parquet" =
      Some {| partitionBy := ["year"; "month"]%string; contents := SongplaysTable rows |} ∧
    map Songplays.play rows = flat_map (songplays_of utc catalog_twice) events_plays_ts ∧
    length rows = length (flat_map (songplays_of utc catalog_twice) events_plays_ts) ∧
    (∀ l, length (songplays_of utc catalog_twice l) =
          length (filter (exact_match l) catalog_twice)) ∧
    (∀ l1 l l2, events_plays_ts = l1 ++ l :: l2 →
       ∃ rows1 rows_l rows2,
         rows = rows1 ++ rows_l ++ rows2 ∧
         map Songplays.play rows_l = songplays_of utc catalog_twice l ∧
         length rows_l = length (filter (exact_match l) catalog_twice)).
Proof.
  apply (songplays_count_matches sample_config
           (sample_world catalog_twice events_plays [2%nat]) catalog_twice events_plays).
  - vm_compute. reflexivity.
  - vm_compute. reflexivity.
  - vm_compute. reflexivity.
Defined.

(** C9: within the limits under which Spark documents
    [monotonically_increasing_id] (at most 2^31 partitions of at most 2^33
    rows), the identifiers of the songplays table written by a run are
    pairwise distinct. *)
Theorem songplay_ids_distinct config w w' rows :
  main config w = (Ok (), w') →
  parquet_files w' !! path_join (OUTPUT_DATA config) "songplays.parquet" =
    Some {| partitionBy := ["year"; "month"]%string; contents := SongplaysTable rows |} →
  within_id_limits (partitions (shuffle w) (map Songplays.play rows)) →
  NoDup (map Songplays.songplay_id rows).
Proof.
  intros Hrun Hrows.
  destruct (main_Ok_inv _ _ _ Hrun) as (songs & recs & lts & Hsongs & Hlogs & Hts).
  destruct (main_run config w songs recs lts) as (w'' & Hrun' & _ & _ & Hfiles); try done.
  rewrite Hrun in Hrun'. injection Hrun' as <-.
  rewrite Hfiles, lookup_insert_eq in Hrows. injection Hrows as <-.
  rewrite play_with_songplay_id. intros [Hlen Hall].
  rewrite with_songplay_id_number.
  rewrite (number_ext _ (λ p, row_id (0 + p))) by done.
  apply NoDup_number_id; [lia | done].
Qed.

Lemma songplay_ids_distinct_witness :
  NoDup (map Songplays.songplay_id
           (with_songplay_id
              (partitions [1%nat] (select_song_df utc events_plays_ts catalog_twice)))).
Proof.
  apply (songplay_ids_distinct sample_config
           (sample_world catalog_twice events_plays [1%nat])
           (main sample_config (sample_world catalog_twice events_plays [1%nat])).2).
  - vm_compute. reflexivity.
  - vm_compute. reflexivity.
  - split.
    + vm_compute. discriminate.
    + repeat constructor; vm_compute; discriminate.
Defined.

(** With the first joined row in one partition and the second in the
    next, the identifiers are 0 and 2^33. *)
Example songplay_ids_two_partitions :
  map Songplays.songplay_id
    (with_songplay_id
       (partitions [1%nat] (select_song_df utc events_plays_ts catalog_twice))) =
    [0; 8589934592].
Proof. vm_compute. reflexivity. Qed.

(** * Running the pipeline again *)



(** The identifiers do change with the partitioning: one partition gives
    0 and 1 where two partitions give 0 and 2^33. *)
Example songplay_ids_not_stable :
  map Songplays.songplay_id
    (with_songplay_id (partitions [] (select_song_df utc events_plays_ts catalog_twice))) =
    [0; 1].
Proof. vm_compute. reflexivity. Qed.

(** * The two transforms and the session *)

(** [process_log_data] joins the events with whatever DataFrame the
    session holds under the name [song_data]; it reads no song file. *)
Lemma songplays_use_session_view input output w recs lts view :
  json_files w !! path_join input "log_data" = Some (LogFiles recs) →
  with_start_time (timezone w) (filter_next_song recs) = Ok lts →
  temp_views w !! "song_data"%string = Some (SongDF view) →
  (process_log_data input output w).1 = Ok () ∧
  parquet_files (process_log_data input output w).2
    !! path_join output "songplays.parquet" =
    Some {| partitionBy := ["year"; "month"]%string;
            contents := SongplaysTable
                          (with_songplay_id
                             (partitions (shuffle w) (select_song_df (timezone w) lts view))) |}.
Proof.
  intros Hlogs Hts Hview. rewrite (process_log_data_run_log _ _ _ _ Hlogs).
  cbv zeta. rewrite Hts, Hview. split; [done|]. cbn. apply lookup_insert_eq.
Qed.

(** C1, as amended: the songplays join reads the [song_data] view of the
    session, which [process_log_data] does not load.  Run after
    [process_song_data], it joins the events with the song records that
    transform has read.  Run in a session without the view, it writes the
    same users and time tables, then fails with an AnalysisException and
    leaves the songplays location as it was. *)
Theorem songplays_need_song_data_view input output w songs recs lts :
  json_files w !! path_join input "song_data" = Some (SongFiles songs) →
  json_files w !! path_join input "log_data" = Some (LogFiles recs) →
  with_start_time (timezone w) (filter_next_song recs) = Ok lts →
  temp_views w !! "song_data"%string = None →
  let alone := process_log_data input output w in
  let after := bind (process_song_data input output) (λ _, process_log_data input output) w in
  alone.1 = Raise AnalysisException ∧
  after.1 = Ok () ∧
  parquet_files alone.2 !! path_join output "users.parquet" =
    parquet_files after.2 !! path_join output "users.parquet" ∧
  parquet_files after.2 !! path_join output "users.parquet" =
    Some {| partitionBy := [];
            contents := UsersTable (select_users (filter_next_song recs)) |} ∧
  parquet_files alone.2 !! path_join output "time.parquet" =
    parquet_files after.2 !! path_join output "time.parquet" ∧
  parquet_files after.2 !! path_join output "time.parquet" =
    Some {| partitionBy := ["year"; "month"]%string;
            contents := TimeTable (select_time (timezone w) lts) |} ∧
  parquet_files alone.2 !! path_join output "songplays.parquet" =
    parquet_files w !! path_join output "songplays.parquet" ∧
  parquet_files after.2 !! path_join output "songplays.parquet" =
    Some {| partitionBy := ["year"; "month"]%string;
            contents := SongplaysTable
                          (with_songplay_id
                             (partitions (shuffle w) (select_song_df (timezone w) lts songs))) |}.
Proof.
  intros Hsongs Hlogs Hts Hview alone after.
  assert (Halone : alone =
            (Raise AnalysisException,
             with_parquet (path_join output "time.parquet")
               {| partitionBy := ["year"; "month"]%string;
                  contents := TimeTable (select_time (timezone w) lts) |}
               (with_view "log_data" (LogTsDF (filter_next_song recs))
                  (with_parquet (path_join output "users.parquet")
                     {| partitionBy := [];
                        contents := UsersTable (select_users (filter_next_song recs)) |}
                     (with_view "log_data" (LogDF (filter_next_song recs)) w))))).
  { subst alone. rewrite (process_log_data_run_log _ _ _ _ Hlogs). cbv zeta.
    by rewrite Hts, Hview. }
  assert (Hafter : after =
            process_log_data input output
              (with_parquet (path_join output "artists.parquet")
                 {| partitionBy := []; contents := ArtistsTable (select_artists songs) |}
                 (with_parquet (path_join output "songs.parquet")
                    {| partitionBy := ["year"; "artist_id"]%string;
                       contents := SongsTable (select_songs songs) |}
                    (with_view "song_data" (SongDF songs) w)))).
  { subst after. unfold bind. by rewrite process_song_data_run, Hsongs. }
  rewrite Hafter, Halone.
  rewrite (process_log_data_run_log _ _ _ recs) by done. cbv zeta.
  cbn [timezone with_parquet with_view]. rewrite Hts.
  cbn [temp_views with_parquet with_view]. rewrite lookup_insert_eq.
  cbn [fst snd parquet_files with_parquet with_view].
  repeat split.
  - rewrite lookup_insert_ne by paths_ne. rewrite lookup_insert_eq.
    rewrite !lookup_insert_ne by paths_ne. by rewrite lookup_insert_eq.
  - rewrite !lookup_insert_ne by paths_ne. by rewrite lookup_insert_eq.
  - rewrite lookup_insert_eq. rewrite lookup_insert_ne by paths_ne.
    by rewrite lookup_insert_eq.
  - rewrite lookup_insert_ne by paths_ne. by rewrite lookup_insert_eq.
  - by rewrite !lookup_insert_ne by paths_ne.
  - by rewrite lookup_insert_eq.
Qed.

Lemma songplays_need_song_data_view_witness :
  let w := sample_world catalog_twice events_plays [] in
  let alone := process_log_data "in" "out" w in
  let after := bind (process_song_data "in" "out") (λ _, process_log_data "in" "out") w in
  alone.1 = Raise AnalysisException ∧
  after.1 = Ok () ∧
  parquet_files alone.2 !! path_join "out" "users.parquet" =
    parquet_files after.2 !! path_join "out" "users.parquet" ∧
  parquet_files after.2 !! path_join "out" "users.parquet" =
    Some {| partitionBy := [];
            contents := UsersTable (select_users (filter_next_song events_plays)) |} ∧
  parquet_files alone.2 !! path_join "out" "time.parquet" =
    parquet_files after.2 !! path_join "out" "time.parquet" ∧
  parquet_files after.2 !! path_join "out" "time.parquet" =
    Some {| partitionBy := ["year"; "month"]%string;
            contents := TimeTable (select_time utc events_plays_ts) |} ∧
  parquet_files alone.2 !! path_join "out" "songplays.parquet" =
    parquet_files w !! path_join "out" "songplays.parquet" ∧
  parquet_files after.2 !! path_join "out" "songplays.parquet" =
    Some {| partitionBy := ["year"; "month"]%string;
            contents := SongplaysTable
                          (with_songplay_id
                             (partitions (shuffle w)
                                (select_song_df utc events_plays_ts catalog_twice))) |}.
Proof.
  apply (songplays_need_song_data_view "in" "out"
           (sample_world catalog_twice events_plays []) catalog_twice events_plays).
  - vm_compute. reflexivity.
  - vm_compute. reflexivity.
  - vm_compute. reflexivity.
  - vm_compute. reflexivity.
Defined.

(** C1, as stated, fails: on the same files, [process_log_data] alone
    raises and writes no songplays table, whereas after
    [process_song_data] it returns and writes one. *)
Lemma log_transform_alone_counterexample :
  let w := sample_world catalog_twice events_plays [] in
  let alone := process_log_data "in" "out" w in
  let after := bind (process_song_data "in" "out") (λ _, process_log_data "in" "out") w in
  ¬ (alone.1 = after.1 ∧
     parquet_files alone.2 !! path_join "out" "songplays.parquet" =
     parquet_files after.2 !! path_join "out" "songplays.parquet").
Proof. vm_compute. intros [H _]. discriminate H. Qed.

(** * The conversion of [ts] to [start_time] *)

Lemma round_half_even_bound n d :
  0 < d → - d ≤ 2 * (round_half_even n d * d - n) ≤ d.
Proof.
  intros Hd. unfold round_half_even.
  pose proof (Z.div_mod n d ltac:(lia)) as Hdiv.
  pose proof (Z.mod_pos_bound n d Hd) as Hmod.
  destruct (Z.compare_spec (2 * (n mod d)) d) as [Heq|Hlt|Hgt].
  - destruct (Z.even (n / d)); nia.
  - nia.
  - nia.
Qed.

Lemma round_half_even_unique n d k :
  0 < d → - d < 2 * (k * d - n) < d → round_half_even n d = k.
Proof.
  intros Hd Hk. pose proof (round_half_even_bound n d Hd) as Hx.
  assert (- 1 < round_half_even n d - k < 1) by nia. lia.
Qed.

Lemma ilog2_upper n d K :
  0 < n → 0 < d → 0 ≤ K → n < d * 2 ^ (K + 1) → ilog2 n d ≤ K.
Proof.
  intros Hn Hd HK Hlt. unfold ilog2.
  pose proof (Z.log2_spec d Hd) as [Hd1 Hd2].
  assert (Hk : Z.log2 n - Z.log2 d ≤ K + 1).
  { assert (Z.log2 n < Z.log2 d + K + 2); [|lia].
    apply Z.log2_lt_pow2; [done|].
    replace (Z.log2 d + K + 2) with (Z.succ (Z.log2 d) + (K + 1)) by lia.
    rewrite Z.pow_add_r by (pose proof (Z.log2_nonneg d); lia).
    assert (0 < 2 ^ (K + 1)) by (apply Z.pow_pos_nonneg; lia). nia. }
  destruct (Z.leb_spec 0 (Z.log2 n - Z.log2 d)) as [Hk0|Hk0].
  - destruct (Z.leb_spec (d * 2 ^ (Z.log2 n - Z.log2 d)) n) as [Hle|Hgt]; [|lia].
    destruct (decide (Z.log2 n - Z.log2 d ≤ K)) as [|Hbig]; [done|].
    assert (Z.log2 n - Z.log2 d = K + 1) as Heq by lia. rewrite Heq in Hle. lia.
  - destruct (d <=? n * 2 ^ (- (Z.log2 n - Z.log2 d))); lia.
Qed.

(** Rounding a positive quotient below [2 ^ (K + 1)] keeps at least
    [52 - K] fractional bits and is off by at most half a unit of the
    last one. *)
Lemma round_to_binary64_pos n d K :
  0 < n → 0 < d → 0 ≤ K ≤ 51 → n < d * 2 ^ (K + 1) →
  ∃ m e, round_to_binary64 n d = B64 m e ∧ e ≤ K - 52 ∧
         - d ≤ 2 * (m * d - n * 2 ^ (- e)) ≤ d.
Proof.
  intros Hn Hd HK Hlt. unfold round_to_binary64.
  destruct (Z.eqb_spec n 0) as [|_]; [lia|].
  rewrite Z.abs_eq by lia.
  pose proof (ilog2_upper n d K Hn Hd ltac:(lia) Hlt) as He.
  set (e := ilog2 n d - 52) in *.
  destruct (Z.leb_spec 0 e) as [|_]; [lia|].
  eexists _, e. split; [done|]. split; [lia|].
  by apply round_half_even_bound.
Qed.

Lemma modf_fraction m e q :
  e < 0 → q * 2 ^ (- e) ≤ m < (q + 1) * 2 ^ (- e) → 0 ≤ q →
  modf (B64 m e) = (q, (m - q * 2 ^ (- e), 2 ^ (- e))).
Proof.
  intros He Hm Hq. unfold modf. cbn [b_exp b_mant].
  destruct (Z.leb_spec 0 e) as [|_]; [lia|].
  assert (HD : 0 < 2 ^ (- e)) by (apply Z.pow_pos_nonneg; lia).
  set (D := 2 ^ (- e)) in *.
  assert (Hdiv : m / D = q) by (symmetry; apply (Z.div_unique m D q (m - q * D)); lia).
  rewrite Z.quot_div_nonneg, Z.rem_mod_nonneg by nia.
  rewrite Z.mod_eq by lia. rewrite Hdiv. do 2 f_equal. lia.
Qed.

Lemma pytime_round_exact m e k :
  e < 0 → - 2 ^ (- e) < 2 * (k * 2 ^ (- e) - m) < 2 ^ (- e) →
  pytime_round (B64 m e) = k.
Proof.
  intros He Hk. unfold pytime_round. cbn [b_exp b_mant].
  destruct (Z.leb_spec 0 e) as [|_]; [lia|].
  apply round_half_even_unique; [apply Z.pow_pos_nonneg; lia | done].
Qed.

Lemma double_to_timeval_millis ts :
  0 < ts < 1000 * 2 ^ 33 →
  double_to_timeval (truediv ts 1000) = (ts / 1000, 1000 * (ts mod 1000)).
Proof.
  intros Hts.
  pose proof (Z.div_mod ts 1000 ltac:(lia)) as Hdiv.
  pose proof (Z.mod_pos_bound ts 1000 ltac:(lia)) as Hmod.
  set (q := ts / 1000) in *. set (r := ts mod 1000) in *.
  assert (Hq : 0 ≤ q) by (subst q; apply Z.div_pos; lia).
  destruct (round_to_binary64_pos ts 1000 32) as (m & e & Hround & He & Hm);
    [lia | lia | lia | lia |].
  unfold truediv. rewrite Hround.
  assert (HD : 2 ^ 20 ≤ 2 ^ (- e)) by (apply Z.pow_le_mono_r; lia).
  set (D := 2 ^ (- e)) in *.
  assert (HX : 0 ≤ r * D ≤ 999 * D) by nia.
  assert (Hfrac : - 500 ≤ 1000 * (m - q * D) - r * D ≤ 500) by lia.
  unfold double_to_timeval.
  rewrite (modf_fraction m e q) by (fold D; lia).
  fold D. set (F := m - q * D) in *.
  destruct (decide (r = 0)) as [Hr|Hr].
  - assert (F = 0) as -> by lia. rewrite Hr. reflexivity.
  - assert (HF : 0 < F < D) by lia.
    destruct (round_to_binary64_pos (F * 1000000) D 19) as (m' & e' & Hround' & He' & Hm');
      [lia | lia | lia | |].
    { change (2 ^ (19 + 1)) with 1048576. nia. }
    rewrite Hround'.
    assert (HD' : 2 ^ 33 ≤ 2 ^ (- e')) by (apply Z.pow_le_mono_r; lia).
    set (D' := 2 ^ (- e')) in *.
    assert (Hus : pytime_round (B64 m' e') = 1000 * r).
    { apply pytime_round_exact; [lia|]. fold D'.
      assert (HY : - 500 * D' ≤ D' * (r * D - 1000 * F) ≤ 500 * D') by nia.
      assert (Hgap : 1000000 * D' + D < D * D') by nia.
      split; apply (Z.mul_lt_mono_pos_l D); nia. }
    rewrite Hus.
    destruct (Z.leb_spec 1000000 (1000 * r)) as [|_]; [lia|].
    destruct (Z.ltb_spec (1000 * r) 0) as [|_]; [lia|]. done.
Qed.

(** The conversion in the range where the float quotient resolves the
    millisecond: the whole seconds go through the wall-clock time of the
    zone and back, the milliseconds are kept as they are. *)
Lemma get_timestamp_millis tz ts :
  0 ≤ ts < 1000 * 2 ^ 33 →
  get_timestamp tz (Some ts) =
    Ok (mktime tz (localtime tz (ts / 1000)) * 1000000 + 1000 * (ts mod 1000)).
Proof.
  intros Hts.
  assert (Hdt : double_to_timeval (truediv ts 1000) = (ts / 1000, 1000 * (ts mod 1000))).
  { destruct (decide (ts = 0)) as [->|Hne]; [reflexivity|].
    apply double_to_timeval_millis. lia. }
  unfold get_timestamp. rewrite Hdt. cbv beta iota zeta.
  change (2 ^ 33) with 8589934592 in Hts.
  pose proof (utcoffset_range tz (ts / 1000)) as Hoff.
  assert (Hsec : 0 ≤ ts / 1000 < 8589934592) by (Z.div_mod_to_equations; lia).
  assert (Hms : 0 ≤ ts mod 1000 < 1000) by (apply Z.mod_pos_bound; lia).
  unfold localtime, min_timestamp, max_timestamp.
  rewrite (proj2 (Z.leb_le _ _)) by lia.
  rewrite (proj2 (Z.ltb_lt _ _)) by lia.
  rewrite (proj2 (Z.leb_le _ _)) by lia.
  rewrite (proj2 (Z.ltb_lt _ _)) by lia.
  done.
Qed.

(** Where [mktime] gives back the instant of the wall-clock time (in UTC
    always), the result is [ts] itself, counted in microseconds. *)
Lemma get_timestamp_unambiguous tz ts :
  0 ≤ ts < 1000 * 2 ^ 33 →
  mktime tz (localtime tz (ts / 1000)) = ts / 1000 →
  get_timestamp tz (Some ts) = Ok (1000 * ts).
Proof.
  intros Hts Hmk. rewrite get_timestamp_millis, Hmk by done. f_equal.
  pose proof (Z.div_mod ts 1000 ltac:(lia)). lia.
Qed.




(** In UTC the wall-clock time is the instant, and [start_time] is [ts]
    milliseconds after the epoch. *)
Lemma get_timestamp_utc ts :
  0 ≤ ts < 1000 * 2 ^ 33 → get_timestamp utc (Some ts) = Ok (1000 * ts).
Proof.
  intros Hts. apply get_timestamp_unambiguous; [done|].
  unfold localtime. cbn [utc mktime utcoffset]. lia.
Qed.

(** In the hour that the Pacific time zone repeats when the clocks go
    back, the two instants of a wall-clock time get the same
    [start_time]: 2018-11-04 01:00:00 is 08:00 UTC the first time and
    09:00 UTC the second. *)
Example get_timestamp_repeated_hour :
  get_timestamp pacific (Some 1541318400000) = Ok 1541322000000000 ∧
  get_timestamp pacific (Some 1541322000000) = Ok 1541322000000000.
Proof. split; vm_compute; reflexivity. Qed.

(** A NULL [ts] fails the job, and so does a date past the year 9999. *)
Example get_timestamp_null tz : get_timestamp tz None = Raise PythonException.
Proof. reflexivity. Qed.

Example get_timestamp_out_of_range :
  get_timestamp utc (Some 253402300800000) = Raise PythonException.
Proof. vm_compute. reflexivity. Qed.

(** Past the year 2242 the float quotient no longer resolves the
    microsecond: in the year 5000 a stray microsecond appears. *)
Example get_timestamp_year_5000 :
  get_timestamp utc (Some 95617584000123) = Ok 95617584000123001.
Proof. vm_compute. reflexivity. Qed.

(** The rounding agrees with the standard library's specification of
    binary64 division and multiplication. *)
Example truediv_agrees_with_spec :
  Forall (λ ts, SpecFloat.SFcompare (spec_div ts 1000)
                  (spec_of_binary64 (truediv ts 1000)) = Some Eq)
    [1542241826796; 1; 999; 1500; 95617584000123; -1; -1542241826796;
     8589934591999; 123456789012345].
Proof. repeat constructor. Qed.

Example product_agrees_with_spec :
  Forall (λ ne, SpecFloat.SFcompare (spec_mul_1e6 ne.1 (- ne.2))
                  (spec_of_binary64 (round_to_binary64 (ne.1 * 1000000) (2 ^ ne.2))) =
                Some Eq)
    [(3338666, 22); (1, 1); (4503599627370495, 52); (1, 62); (12345, 30)].
Proof. repeat constructor. Qed.

(** * Failures of the pipeline *)

Lemma process_log_data_run input output w :
  process_log_data input output w =
    match json_files w !! path_join input "log_data" with
    | Some (LogFiles recs) =>
        let log := filter_next_song recs in
        let w2 :=
          with_view "log_data" (LogTsDF log)
            (with_parquet (path_join output "users.parquet")
               {| partitionBy := []; contents := UsersTable (select_users log) |}
               (with_view "log_data" (LogDF log) w)) in
        match with_start_time (timezone w) log with
        | Raise e => (Raise e, w2)
        | Ok lts =>
            let w3 :=
              with_parquet (path_join output "time.parquet")
                {| partitionBy := ["year"; "month"]%string;
                   contents := TimeTable (select_time (timezone w) lts) |} w2 in
            match temp_views w !! "song_data"%string with
            | Some (SongDF songs) =>
                (Ok (),
                 with_parquet (path_join output "songplays.parquet")
                   {| partitionBy := ["year"; "month"]%string;
                      contents :=
                        SongplaysTable
                          (with_songplay_id
                             (partitions (shuffle w) (select_song_df (timezone w) lts songs))) |}
                   w3)
            | _ => (Raise AnalysisException, w3)
            end
        end
    | Some (SongFiles _) => (Raise AttributeError, w)
    | None => (Raise AnalysisException, w)
    end.
Proof.
  destruct (json_files w !! path_join input "log_data") as [[songs|recs]|] eqn:Hin.
  - unfold process_log_data, bind, read_json. by rewrite Hin.
  - by rewrite (process_log_data_run_log _ _ _ _ Hin).
  - unfold process_log_data, bind, read_json. by rewrite Hin.
Qed.

Lemma get_timestamp_exn tz x e : get_timestamp tz x = Raise e → e = PythonException.
Proof.
  unfold get_timestamp. destruct x as [ts|]; [|by intros [= <-]].
  destruct (double_to_timeval (truediv ts 1000)) as [sec us].
  cbv zeta. destruct (_ && _); [done | by intros [= <-]].
Qed.

Lemma with_start_time_exn tz log e :
  with_start_time tz log = Raise e → e = PythonException.
Proof.
  induction log as [|r log IH]; simpl; [done|].
  destruct (get_timestamp tz (LogData.ts r)) as [t|e'] eqn:Ht.
  - destruct (with_start_time tz log) as [rows|e'']; [done|].
    intros [= <-]. by apply IH.
  - intros [= <-]. by apply get_timestamp_exn in Ht.
Qed.

Lemma with_start_time_fails tz log r :
  r ∈ log → get_timestamp tz (LogData.ts r) = Raise PythonException →
  with_start_time tz log = Raise PythonException.
Proof.
  intros Hin Hr. destruct (with_start_time tz log) as [lts|e] eqn:Hts.
  - apply with_start_time_Ok in Hts as [Hlog Hall]. exfalso.
    rewrite <- Hlog in Hin. apply elem_of_select in Hin as (l & Hl & ->).
    rewrite Forall_forall in Hall. specialize (Hall l Hl). congruence.
  - by apply with_start_time_exn in Hts as ->.
Qed.

(** X1: without song files at the input location, [main] stops at the
    first read with an AnalysisException: no table is written and the
    session gets no view, whatever the event log holds. *)
Theorem main_stops_without_song_data config w :
  json_files w !! path_join (INPUT_DATA config) "song_data" = None →
  ∃ w', main config w = (Raise AnalysisException, w') ∧
        parquet_files w' = parquet_files w ∧
        temp_views w' = temp_views w.
Proof.
  intros Hsongs. rewrite main_unfold. cbv zeta. rewrite process_song_data_run.
  cbn [json_files with_env]. rewrite Hsongs. by eexists.
Qed.

Lemma main_stops_without_song_data_witness :
  ∃ w', main sample_config (world_without_songs events_plays) =
          (Raise AnalysisException, w') ∧
        parquet_files w' = parquet_files (world_without_songs events_plays) ∧
        temp_views w' = temp_views (world_without_songs events_plays).
Proof.
  apply (main_stops_without_song_data sample_config (world_without_songs events_plays)).
  vm_compute. reflexivity.
Defined.

(** X2: without an event log at the input location, [main] writes the
    songs and artists tables, then stops with an AnalysisException; no
    other path is touched. *)
Theorem main_stops_without_log_data config w songs :
  json_files w !! path_join (INPUT_DATA config) "song_data" = Some (SongFiles songs) →
  json_files w !! path_join (INPUT_DATA config) "log_data" = None →
  ∃ w', main config w = (Raise AnalysisException, w') ∧
        parquet_files w' !! path_join (OUTPUT_DATA config) "songs.parquet" =
          Some {| partitionBy := ["year"; "artist_id"]%string;
                  contents := SongsTable (select_songs songs) |} ∧
        parquet_files w' !! path_join (OUTPUT_DATA config) "artists.parquet" =
          Some {| partitionBy := []; contents := ArtistsTable (select_artists songs) |} ∧
        (∀ p, p ≠ path_join (OUTPUT_DATA config) "songs.parquet" →
              p ≠ path_join (OUTPUT_DATA config) "artists.parquet" →
              parquet_files w' !! p = parquet_files w !! p).
Proof.
  intros Hsongs Hlogs. rewrite main_unfold. cbv zeta. rewrite process_song_data_run.
  cbn [json_files with_env]. rewrite Hsongs, process_log_data_run.
  cbn [json_files with_parquet with_view with_env]. rewrite Hlogs.
  eexists. split; [done|]. cbn [parquet_files with_parquet with_view with_env].
  split; [|split].
  - rewrite lookup_insert_ne by paths_ne. apply lookup_insert_eq.
  - apply lookup_insert_eq.
  - intros p Hs Ha. by rewrite !lookup_insert_ne by done.
Qed.

Lemma main_stops_without_log_data_witness :
  ∃ w', main sample_config (world_without_logs catalog_twice) =
          (Raise AnalysisException, w') ∧
        parquet_files w' !! path_join (OUTPUT_DATA sample_config) "songs.parquet" =
          Some {| partitionBy := ["year"; "artist_id"]%string;
                  contents := SongsTable (select_songs catalog_twice) |} ∧
        parquet_files w' !! path_join (OUTPUT_DATA sample_config) "artists.parquet" =
          Some {| partitionBy := [];
                  contents := ArtistsTable (select_artists catalog_twice) |} ∧
        (∀ p, p ≠ path_join (OUTPUT_DATA sample_config) "songs.parquet" →
              p ≠ path_join (OUTPUT_DATA sample_config) "artists.parquet" →
              parquet_files w' !! p =
              parquet_files (world_without_logs catalog_twice) !! p).
Proof.
  apply (main_stops_without_log_data sample_config (world_without_logs catalog_twice)).
  - vm_compute. reflexivity.
  - vm_compute. reflexivity.
Defined.

(** X3: one play event without [ts] fails the run with a
    PythonException, in the job that writes the time table: the songs,
    artists and users tables are written by then, and the songplays
    location is never reached. *)
Theorem main_fails_on_null_ts config w songs recs e :
  json_files w !! path_join (INPUT_DATA config) "song_data" = Some (SongFiles songs) →
  json_files w !! path_join (INPUT_DATA config) "log_data" = Some (LogFiles recs) →
  e ∈ recs → LogData.page e = Some "NextSong"%string → LogData.ts e = None →
  ∃ w', main config w = (Raise PythonException, w') ∧
        parquet_files w' !! path_join (OUTPUT_DATA config) "songs.parquet" =
          Some {| partitionBy := ["year"; "artist_id"]%string;
                  contents := SongsTable (select_songs songs) |} ∧
        parquet_files w' !! path_join (OUTPUT_DATA config) "artists.parquet" =
          Some {| partitionBy := []; contents := ArtistsTable (select_artists songs) |} ∧
        parquet_files w' !! path_join (OUTPUT_DATA config) "users.parquet" =
          Some {| partitionBy := [];
                  contents := UsersTable (select_users (filter_next_song recs)) |} ∧
        parquet_files w' !! path_join (OUTPUT_DATA config) "songplays.parquet" =
          parquet_files w !! path_join (OUTPUT_DATA config) "songplays.parquet".
Proof.
  intros Hsongs Hlogs He Hpage Hts.
  assert (Hfail : with_start_time (timezone w) (filter_next_song recs) =
                  Raise PythonException).
  { apply (with_start_time_fails _ _ e); [by apply elem_of_filter_next_song|].
    by rewrite Hts. }
  rewrite main_unfold. cbv zeta. rewrite process_song_data_run.
  cbn [json_files with_env]. rewrite Hsongs, process_log_data_run.
  cbn [json_files with_parquet with_view with_env]. rewrite Hlogs. cbv zeta.
  cbn [timezone with_parquet with_view with_env].
  rewrite Hfail. eexists. split; [done|].
  cbn [parquet_files with_parquet with_view with_env].
  split; [|split; [|split]].
  - rewrite !lookup_insert_ne by paths_ne. apply lookup_insert_eq.
  - rewrite lookup_insert_ne by paths_ne. apply lookup_insert_eq.
  - apply lookup_insert_eq.
  - by rewrite !lookup_insert_ne by paths_ne.
Qed.

Lemma main_fails_on_null_ts_witness :
  ∃ w', main sample_config
          (sample_world catalog_twice (events_upgrade ++ [event_without_ts]) []) =
          (Raise PythonException, w') ∧
        parquet_files w' !! path_join (OUTPUT_DATA sample_config) "songs.parquet" =
          Some {| partitionBy := ["year"; "artist_id"]%string;
                  contents := SongsTable (select_songs catalog_twice) |} ∧
        parquet_files w' !! path_join (OUTPUT_DATA sample_config) "artists.parquet" =
          Some {| partitionBy := [];
                  contents := ArtistsTable (select_artists catalog_twice) |} ∧
        parquet_files w' !! path_join (OUTPUT_DATA sample_config) "users.parquet" =
          Some {| partitionBy := [];
                  contents :=
                    UsersTable
                      (select_users
                         (filter_next_song (events_upgrade ++ [event_without_ts]))) |} ∧
        parquet_files w' !! path_join (OUTPUT_DATA sample_config) "songplays.parquet" =
          parquet_files
            (sample_world catalog_twice (events_upgrade ++ [event_without_ts]) [])
            !! path_join (OUTPUT_DATA sample_config) "songplays.parquet".
Proof.
  apply (main_fails_on_null_ts sample_config
           (sample_world catalog_twice (events_upgrade ++ [event_without_ts]) [])
           catalog_twice (events_upgrade ++ [event_without_ts]) event_without_ts).
  - vm_compute. reflexivity.
  - vm_compute. reflexivity.
  - apply elem_of_app. right. by left.
  - reflexivity.
  - reflexivity.
Defined.

(** * What a run touches *)

Lemma output_paths_NoDup output_data : NoDup (output_paths output_data).
Proof.
  unfold output_paths.
  repeat (apply NoDup_cons; split;
          [rewrite ?elem_of_cons, elem_of_nil;
           intros H; repeat destruct H as [H|H]; try done;
           revert H; paths_ne |]).
  constructor.
Qed.

(** X4: a run that returns has written five tables at five different
    paths under the output location, each with the partition columns of
    its [partitionBy], and has left every other path as it was. *)
Theorem main_writes_five_tables config w w' :
  main config w = (Ok (), w') →
  NoDup (output_paths (OUTPUT_DATA config)) ∧
  partitionBy <$> parquet_files w' !! path_join (OUTPUT_DATA config) "songs.parquet" =
    Some ["year"; "artist_id"]%string ∧
  partitionBy <$> parquet_files w' !! path_join (OUTPUT_DATA config) "artists.parquet" =
    Some [] ∧
  partitionBy <$> parquet_files w' !! path_join (OUTPUT_DATA config) "users.parquet" =
    Some [] ∧
  partitionBy <$> parquet_files w' !! path_join (OUTPUT_DATA config) "time.parquet" =
    Some ["year"; "month"]%string ∧
  partitionBy <$> parquet_files w' !! path_join (OUTPUT_DATA config) "songplays.parquet" =
    Some ["year"; "month"]%string ∧
  (∀ p, p ∉ output_paths (OUTPUT_DATA config) →
        parquet_files w' !! p = parquet_files w !! p).
Proof.
  intros Hrun.
  destruct (main_Ok_inv _ _ _ Hrun) as (songs & recs & lts & Hsongs & Hlogs & Hts).
  destruct (main_run config w songs recs lts) as (w'' & Hrun' & _ & _ & Hfiles); try done.
  rewrite Hrun in Hrun'. injection Hrun' as <-. rewrite Hfiles.
  split; [apply output_paths_NoDup|].
  repeat split.
  - rewrite !lookup_insert_ne by paths_ne. by rewrite lookup_insert_eq.
  - rewrite !lookup_insert_ne by paths_ne. by rewrite lookup_insert_eq.
  - rewrite !lookup_insert_ne by paths_ne. by rewrite lookup_insert_eq.
  - rewrite !lookup_insert_ne by paths_ne. by rewrite lookup_insert_eq.
  - by rewrite lookup_insert_eq.
  - intros p Hp. unfold output_paths in Hp.
    rewrite !not_elem_of_cons in Hp. destruct Hp as (? & ? & ? & ? & ? & _).
    by rewrite !lookup_insert_ne by done.
Qed.

Lemma main_writes_five_tables_witness :
  let w := sample_world catalog_twice events_plays [] in
  let w' := (main sample_config w).2 in
  NoDup (output_paths (OUTPUT_DATA sample_config)) ∧
  partitionBy <$> parquet_files w' !! path_join (OUTPUT_DATA sample_config) "songs.parquet" =
    Some ["year"; "artist_id"]%string ∧
  partitionBy <$> parquet_files w' !! path_join (OUTPUT_DATA sample_config) "artists.parquet" =
    Some [] ∧
  partitionBy <$> parquet_files w' !! path_join (OUTPUT_DATA sample_config) "users.parquet" =
    Some [] ∧
  partitionBy <$> parquet_files w' !! path_join (OUTPUT_DATA sample_config) "time.parquet" =
    Some ["year"; "month"]%string ∧
  partitionBy <$> parquet_files w' !! path_join (OUTPUT_DATA sample_config) "songplays.parquet" =
    Some ["year"; "month"]%string ∧
  (∀ p, p ∉ output_paths (OUTPUT_DATA sample_config) →
        parquet_files w' !! p = parquet_files w !! p).
Proof.
  apply (main_writes_five_tables sample_config (sample_world catalog_twice events_plays [])).
  vm_compute. reflexivity.
Defined.

(** X5: [main] replaces the views it reads before it reads them: its
    result and the tables it leaves do not depend on the temporary views
    the session holds when it starts. *)
Theorem main_ignores_initial_session config w views :
  (main config (rerun views (environ w) (shuffle w) w)).1 = (main config w).1 ∧
  parquet_files (main config (rerun views (environ w) (shuffle w) w)).2 =
    parquet_files (main config w).2.
Proof.
  rewrite !main_unfold. cbv zeta. rewrite !process_song_data_run.
  cbn [json_files with_env rerun].
  destruct (json_files w !! path_join (INPUT_DATA config) "song_data")
    as [[songs|recs]|]; [| done | done].
  rewrite !process_log_data_run.
  cbn [json_files with_parquet with_view with_env rerun].
  destruct (json_files w !! path_join (INPUT_DATA config) "log_data")
    as [[?|recs]|]; [done | | done].
  cbv zeta. cbn [timezone with_parquet with_view with_env rerun].
  destruct (with_start_time (timezone w) (filter_next_song recs)) as [lts|e]; [|done].
  cbn [temp_views with_parquet with_view with_env rerun shuffle].
  rewrite !lookup_insert_eq. done.
Qed.

(** ** Trailing slash of the output location *)
Lemma append_assoc (a b c : string) : (a +:+ b) +:+ c = a +:+ (b +:+ c).
Proof.
  induction a as [|x a IH]; [done|].
  change (String x ((a +:+ b) +:+ c) = String x (a +:+ (b +:+ c))). by f_equal.
Qed.

Lemma ends_with_slash_append a : ends_with_slash (a +:+ "/") = true.
Proof.
  induction a as [|x a IH]; [done|].
  change (ends_with_slash (String x (a +:+ "/")) = true).
  destruct a as [|y a]; [done|].
  change (ends_with_slash (String x (String y (a +:+ "/"))) = true).
  change (ends_with_slash (String y a +:+ "/") = true) in IH. done.
Qed.

Lemma path_join_trailing_slash a p :
  a ≠ ""%string → ends_with_slash a = false →
  path_join (a +:+ "/") p = path_join a p.
Proof.
  intros Ha Hslash. unfold path_join. destruct (starts_with_slash p); [done|].
  rewrite ends_with_slash_append, Hslash, orb_true_r.
  rewrite bool_decide_eq_false_2 by done. simpl. apply append_assoc.
Qed.

(** X6: the tables do not move when the output location is given with a
    trailing slash: [os.path.join] adds the separator only when it is
    missing. *)
Theorem main_output_trailing_slash config w :
  OUTPUT_DATA config ≠ ""%string → ends_with_slash (OUTPUT_DATA config) = false →
  main (with_output_data (OUTPUT_DATA config +:+ "/") config) w = main config w.
Proof.
  intros Hne Hslash. unfold main, process_song_data, process_log_data.
  cbn [AWS_ACCESS_KEY_ID AWS_SECRET_ACCESS_KEY INPUT_DATA OUTPUT_DATA with_output_data].
  by rewrite !path_join_trailing_slash.
Qed.

Lemma main_output_trailing_slash_witness :
  main (with_output_data (OUTPUT_DATA sample_config +:+ "/") sample_config)
    (sample_world catalog_twice events_plays []) =
  main sample_config (sample_world catalog_twice events_plays []).
Proof.
  apply (main_output_trailing_slash sample_config); [discriminate | reflexivity].
Defined.

(** X7: whatever becomes of the run, the two credentials of the
    configuration are in the environment afterwards, and no other
    variable has changed. *)
Theorem main_exports_credentials config w :
  environ (main config w).2 =
    <["AWS_SECRET_ACCESS_KEY"%string := AWS_SECRET_ACCESS_KEY config]>
      (<["AWS_ACCESS_KEY_ID"%string := AWS_ACCESS_KEY_ID config]> (environ w)).
Proof.
  rewrite main_unfold. cbv zeta. rewrite process_song_data_run.
  cbn [json_files with_env].
  destruct (json_files w !! path_join (INPUT_DATA config) "song_data")
    as [[songs|recs]|]; [| done | done].
  rewrite process_log_data_run. cbn [json_files with_parquet with_view with_env].
  destruct (json_files w !! path_join (INPUT_DATA config) "log_data")
    as [[?|recs]|]; [done | | done].
  cbv zeta. cbn [timezone with_parquet with_view with_env].
  destruct (with_start_time (timezone w) (filter_next_song recs)) as [lts|e]; [|done].
  cbn [temp_views with_parquet with_view with_env].
  rewrite lookup_insert_eq. done.
Qed.

(** * The fact table against the dimension tables *)

Lemma elem_of_select_song_df tz lts songs x :
  x ∈ select_song_df tz lts songs ↔
  ∃ l s, l ∈ lts ∧ s ∈ songs ∧ exact_match l s ∧ x = song_df_row tz l s.
Proof.
  unfold select_song_df. rewrite elem_of_select. split.
  - intros ([l s] & (Hl & Hs & Hon)%elem_of_inner_join & ->).
    apply song_match_holds in Hon. by exists l, s.
  - intros (l & s & Hl & Hs & Hm & ->). exists (l, s). split; [|done].
    apply elem_of_inner_join. by rewrite song_match_holds.
Qed.

Lemma elem_of_songplays tz cuts lts songs row :
  row ∈ with_songplay_id (partitions cuts (select_song_df tz lts songs)) →
  ∃ l s, l ∈ lts ∧ s ∈ songs ∧ exact_match l s ∧ Songplays.play row = song_df_row tz l s.
Proof.
  intros Hrow. apply elem_of_select_song_df.
  rewrite <- (play_with_songplay_id cuts (select_song_df tz lts songs)).
  apply elem_of_select. eauto.
Qed.

(** The tables of a run that returns, by name. *)
Lemma main_tables config w w' :
  main config w = (Ok (), w') →
  ∃ songs recs lts,
    json_files w !! path_join (INPUT_DATA config) "song_data" = Some (SongFiles songs) ∧
    json_files w !! path_join (INPUT_DATA config) "log_data" = Some (LogFiles recs) ∧
    with_start_time (timezone w) (filter_next_song recs) = Ok lts ∧
    parquet_files w' !! path_join (OUTPUT_DATA config) "songs.parquet" =
      Some {| partitionBy := ["year"; "artist_id"]%string;
              contents := SongsTable (select_songs songs) |} ∧
    parquet_files w' !! path_join (OUTPUT_DATA config) "artists.parquet" =
      Some {| partitionBy := []; contents := ArtistsTable (select_artists songs) |} ∧
    parquet_files w' !! path_join (OUTPUT_DATA config) "users.parquet" =
      Some {| partitionBy := [];
              contents := UsersTable (select_users (filter_next_song recs)) |} ∧
    parquet_files w' !! path_join (OUTPUT_DATA config) "time.parquet" =
      Some {| partitionBy := ["year"; "month"]%string;
              contents := TimeTable (select_time (timezone w) lts) |} ∧
    parquet_files w' !! path_join (OUTPUT_DATA config) "songplays.parquet" =
      Some {| partitionBy := ["year"; "month"]%string;
              contents := SongplaysTable
                            (with_songplay_id
                               (partitions (shuffle w) (select_song_df (timezone w) lts songs))) |}.
Proof.
  intros Hrun.
  destruct (main_Ok_inv _ _ _ Hrun) as (songs & recs & lts & Hsongs & Hlogs & Hts).
  destruct (main_run config w songs recs lts) as (w'' & Hrun' & _ & _ & Hfiles); try done.
  rewrite Hrun in Hrun'. injection Hrun' as <-. rewrite Hfiles.
  exists songs, recs, lts. repeat split; try done.
  - rewrite !lookup_insert_ne by paths_ne. by rewrite lookup_insert_eq.
  - rewrite !lookup_insert_ne by paths_ne. by rewrite lookup_insert_eq.
  - rewrite !lookup_insert_ne by paths_ne. by rewrite lookup_insert_eq.
  - rewrite !lookup_insert_ne by paths_ne. by rewrite lookup_insert_eq.
  - by rewrite lookup_insert_eq.
Qed.


(** X9: every songplays row carries the [song_id] and [artist_id] of one
    row of the songs table, and the [artist_id] of a row of the artists
    table. *)
Theorem songplays_ids_in_song_tables config w w' plays songs_rows artists_rows :
  main config w = (Ok (), w') →
  parquet_files w' !! path_join (OUTPUT_DATA config) "songplays.parquet" =
    Some {| partitionBy := ["year"; "month"]%string; contents := SongplaysTable plays |} →
  parquet_files w' !! path_join (OUTPUT_DATA config) "songs.parquet" =
    Some {| partitionBy := ["year"; "artist_id"]%string;
            contents := SongsTable songs_rows |} →
  parquet_files w' !! path_join (OUTPUT_DATA config) "artists.parquet" =
    Some {| partitionBy := []; contents := ArtistsTable artists_rows |} →
  ∀ row, row ∈ plays →
    (∃ s, s ∈ songs_rows ∧
          Songs.song_id s = SongDf.song_id (Songplays.play row) ∧
          Songs.artist_id s = SongDf.artist_id (Songplays.play row)) ∧
    (∃ a, a ∈ artists_rows ∧
          Artists.artist_id a = SongDf.artist_id (Songplays.play row)).
Proof.
  intros Hrun Hplays Hsongs Hartists row Hrow.
  destruct (main_tables _ _ _ Hrun)
    as (songs & recs & lts & _ & _ & _ & Hsongs' & Hartists' & _ & _ & Hplays').
  rewrite Hplays' in Hplays. injection Hplays as <-.
  rewrite Hsongs' in Hsongs. injection Hsongs as <-.
  rewrite Hartists' in Hartists. injection Hartists as <-.
  apply elem_of_songplays in Hrow as (l & s & _ & Hs & _ & ->).
  split.
  - exists (songs_row s). split; [|done].
    unfold select_songs. rewrite elem_of_distinct, elem_of_select. eauto.
  - exists (artists_row s). split; [|done].
    unfold select_artists. rewrite elem_of_distinct, elem_of_select. eauto.
Qed.

(** X10: every songplays row with a [user_id] has a row of the users
    table with that [user_id]. *)
Theorem songplays_user_in_users_table config w w' plays users :
  main config w = (Ok (), w') →
  parquet_files w' !! path_join (OUTPUT_DATA config) "songplays.parquet" =
    Some {| partitionBy := ["year"; "month"]%string; contents := SongplaysTable plays |} →
  parquet_files w' !! path_join (OUTPUT_DATA config) "users.parquet" =
    Some {| partitionBy := []; contents := UsersTable users |} →
  ∀ row u, row ∈ plays → SongDf.user_id (Songplays.play row) = Some u →
    ∃ r, r ∈ users ∧ Users.user_id r = Some u.
Proof.
  intros Hrun Hplays Husers row u Hrow Hu.
  destruct (main_tables _ _ _ Hrun)
    as (songs & recs & lts & _ & _ & Hts & _ & _ & Husers' & _ & Hplays').
  rewrite Hplays' in Hplays. injection Hplays as <-.
  rewrite Husers' in Husers. injection Husers as <-.
  apply elem_of_songplays in Hrow as (l & s & Hl & _ & _ & Hrow).
  rewrite Hrow in Hu. cbn in Hu.
  apply with_start_time_Ok in Hts as [Hlog Hall].
  rewrite Forall_forall in Hall. specialize (Hall l Hl).
  destruct (LogData.ts (LogTs.log l)) as [t|] eqn:Ht; [|done].
  apply (select_users_some_row _ (LogTs.log l) u t); [|done..].
  rewrite <- Hlog. apply elem_of_select. eauto.
Qed.


Lemma songplays_ids_in_song_tables_witness :
  main sample_config (sample_world catalog_twice events_plays []) =
    (Ok (), (main sample_config (sample_world catalog_twice events_plays [])).2) ∧
  (∀ row, row ∈ sample_songplays →
     (∃ s, s ∈ select_songs catalog_twice ∧
           Songs.song_id s = SongDf.song_id (Songplays.play row) ∧
           Songs.artist_id s = SongDf.artist_id (Songplays.play row)) ∧
     (∃ a, a ∈ select_artists catalog_twice ∧
           Artists.artist_id a = SongDf.artist_id (Songplays.play row))).
Proof.
  split; [vm_compute; reflexivity|].
  apply (songplays_ids_in_song_tables sample_config
           (sample_world catalog_twice events_plays [])
           (main sample_config (sample_world catalog_twice events_plays [])).2).
  - vm_compute. reflexivity.
  - vm_compute. reflexivity.
  - vm_compute. reflexivity.
  - vm_compute. reflexivity.
Defined.

Lemma songplays_user_in_users_table_witness :
  main sample_config (sample_world catalog_twice events_plays []) =
    (Ok (), (main sample_config (sample_world catalog_twice events_plays [])).2) ∧
  (∀ row u, row ∈ sample_songplays →
     SongDf.user_id (Songplays.play row) = Some u →
     ∃ r, r ∈ select_users (filter_next_song events_plays) ∧ Users.user_id r = Some u).
Proof.
  split; [vm_compute; reflexivity|].
  apply (songplays_user_in_users_table sample_config
           (sample_world catalog_twice events_plays [])
           (main sample_config (sample_world catalog_twice events_plays [])).2).
  - vm_compute. reflexivity.
  - vm_compute. reflexivity.
  - vm_compute. reflexivity.
Defined.

(** * A log without play events *)

Lemma filter_next_song_nil recs :
  (∀ e, e ∈ recs → LogData.page e ≠ Some "NextSong"%string) →
  filter_next_song recs = [].
Proof.
  intros Hnone. destruct (filter_next_song recs) as [|e log] eqn:Hlog; [done|].
  assert (He : e ∈ filter_next_song recs) by (rewrite Hlog; by left).
  apply elem_of_filter_next_song in He as [He Hpage]. by destruct (Hnone e He).
Qed.

Lemma with_songplay_id_nil cuts : with_songplay_id (partitions cuts []) = [].
Proof.
  pose proof (play_with_songplay_id cuts []) as Hplay.
  by destruct (with_songplay_id (partitions cuts [])).
Qed.

(** X11: when the event log holds records and none of them is a play
    event, the run returns and the users, time and songplays tables are
    written empty. *)
Theorem main_without_play_events config w songs recs :
  json_files w !! path_join (INPUT_DATA config) "song_data" = Some (SongFiles songs) →
  json_files w !! path_join (INPUT_DATA config) "log_data" = Some (LogFiles recs) →
  recs ≠ [] →
  (∀ e, e ∈ recs → LogData.page e ≠ Some "NextSong"%string) →
  ∃ w', main config w = (Ok (), w') ∧
        parquet_files w' !! path_join (OUTPUT_DATA config) "users.parquet" =
          Some {| partitionBy := []; contents := UsersTable [] |} ∧
        parquet_files w' !! path_join (OUTPUT_DATA config) "time.parquet" =
          Some {| partitionBy := ["year"; "month"]%string; contents := TimeTable [] |} ∧
        parquet_files w' !! path_join (OUTPUT_DATA config) "songplays.parquet" =
          Some {| partitionBy := ["year"; "month"]%string;
                  contents := SongplaysTable [] |}.
Proof.
  intros Hsongs Hlogs _ Hnone.
  pose proof (filter_next_song_nil recs Hnone) as Hnil.
  destruct (main_run config w songs recs []) as (w' & Hrun & _ & _ & Hfiles);
    [done | done | by rewrite Hnil |].
  exists w'. split; [done|].
  destruct (main_tables _ _ _ Hrun)
    as (songs' & recs' & lts & Hsongs' & Hlogs' & Hts & _ & _ & Husers & Htime & Hplays).
  rewrite Hsongs in Hsongs'. injection Hsongs' as <-.
  rewrite Hlogs in Hlogs'. injection Hlogs' as <-.
  rewrite Hnil in Hts, Husers. injection Hts as <-.
  rewrite with_songplay_id_nil in Hplays. done.
Qed.

Lemma main_without_play_events_witness :
  ∃ w', main sample_config (sample_world catalog_twice events_no_play []) = (Ok (), w') ∧
        parquet_files w' !! path_join (OUTPUT_DATA sample_config) "users.parquet" =
          Some {| partitionBy := []; contents := UsersTable [] |} ∧
        parquet_files w' !! path_join (OUTPUT_DATA sample_config) "time.parquet" =
          Some {| partitionBy := ["year"; "month"]%string; contents := TimeTable [] |} ∧
        parquet_files w' !! path_join (OUTPUT_DATA sample_config) "songplays.parquet" =
          Some {| partitionBy := ["year"; "month"]%string;
                  contents := SongplaysTable [] |}.
Proof.
  apply (main_without_play_events sample_config
           (sample_world catalog_twice events_no_play []) catalog_twice events_no_play).
  - vm_compute. reflexivity.
  - vm_compute. reflexivity.
  - discriminate.
  - intros e He. apply list_elem_of_In in He.
    destruct He as [<-|[<-|[]]]; discriminate.
Defined.

(** * Timestamps in the range of the conversion *)




(** A run is its result and the world it leaves. *)
Lemma run_eta {A} (r : result A * World) (v : result A) : r.1 = v → r = (v, r.2).
Proof. destruct r as [v' w]. simpl. by intros ->. Qed.

(** * Ranges of the calendar columns *)

(** The intermediate quantities of [civil_from_days]: the 400-year era,
    the day of the era, the year of the era, the day of the year counted
    from March 1st and the month counted from March. *)
Lemma civil_from_days_inv z :
  ∃ era yoe doy mp,
    0 ≤ yoe ≤ 399 ∧ 0 ≤ doy ≤ 365 ∧ 0 ≤ mp ≤ 11 ∧
    mp = (5 * doy + 2) / 153 ∧
    z = era * 146097 + (yoe * 365 + yoe / 4 - yoe / 100 + doy) - 719468 ∧
    civil_from_days z =
      (yoe + era * 400 + (if (if mp <? 10 then mp + 3 else mp - 9) <=? 2 then 1 else 0),
       if mp <? 10 then mp + 3 else mp - 9,
       doy - (153 * mp + 2) / 5 + 1).
Proof.
  unfold civil_from_days.
  set (z' := z + 719468).
  set (era := z' / 146097).
  set (doe := z' - era * 146097).
  assert (Hdoe : 0 ≤ doe ≤ 146096) by (subst doe era; Z.div_mod_to_equations; lia).
  assert (Hz : z = era * 146097 + doe - 719468) by (subst doe z'; lia).
  clearbody doe era. clear z'.
  set (yoe := (doe - doe / 1460 + doe / 36524 - doe / 146096) / 365).
  assert (Hyoe : 0 ≤ yoe ≤ 399) by (subst yoe; Z.div_mod_to_equations; lia).
  set (doy := doe - (365 * yoe + yoe / 4 - yoe / 100)).
  assert (Hdoy : 0 ≤ doy ≤ 365) by (subst doy yoe; Z.div_mod_to_equations; lia).
  assert (Hdoe' : doe = yoe * 365 + yoe / 4 - yoe / 100 + doy) by (subst doy; lia).
  clearbody doy yoe.
  set (mp := (5 * doy + 2) / 153).
  assert (Hmp : 0 ≤ mp ≤ 11) by (subst mp; Z.div_mod_to_equations; lia).
  exists era, yoe, doy, mp. subst doe. repeat split; try lia; done.
Qed.

Lemma civil_from_days_ranges z :
  1 ≤ (civil_from_days z).1.2 ≤ 12 ∧ 1 ≤ (civil_from_days z).2 ≤ 31.
Proof.
  destruct (civil_from_days_inv z)
    as (era & yoe & doy & mp & Hyoe & Hdoy & Hmp & Hmpdef & _ & ->).
  cbn [fst snd]. split.
  - destruct (Z.ltb_spec mp 10); lia.
  - subst mp. Z.div_mod_to_equations. lia.
Qed.

(** The first of January of the year of day [z] is at most 365 days
    before [z]. *)
Lemma day_of_year_range z :
  0 ≤ z - days_from_civil (civil_from_days z).1.1 1 1 ≤ 365.
Proof.
  destruct (civil_from_days_inv z)
    as (era & yoe & doy & mp & Hyoe & Hdoy & Hmp & Hmpdef & Hz & ->).
  cbn [fst snd]. unfold days_from_civil.
  change (1 <=? 2) with true. change (2 <? 1) with false. cbv iota.
  change ((153 * (1 + 9) + 2) / 5 + 1 - 1) with 306.
  destruct (Z.ltb_spec mp 10) as [Hlt|Hge].
  - destruct (Z.leb_spec (mp + 3) 2); [lia|].
    replace (yoe + era * 400 + 0 - 1) with (era * 400 + (yoe - 1)) by lia.
    assert (Hdoy' : doy ≤ 305) by (subst mp; Z.div_mod_to_equations; lia).
    destruct (decide (yoe = 0)) as [->|Hne].
    + replace ((era * 400 + (0 - 1)) / 400) with (era - 1)
        by (Z.div_mod_to_equations; lia).
      replace (era * 400 + (0 - 1) - (era - 1) * 400) with 399 by lia.
      change (399 / 4) with 99. change (399 / 100) with 3.
      change (0 / 4) with 0 in Hz. change (0 / 100) with 0 in Hz. lia.
    + replace ((era * 400 + (yoe - 1)) / 400) with era
        by (Z.div_mod_to_equations; lia).
      replace (era * 400 + (yoe - 1) - era * 400) with (yoe - 1) by lia.
      subst z. Z.div_mod_to_equations. lia.
  - destruct (Z.leb_spec (mp - 9) 2); [|lia].
    replace (yoe + era * 400 + 1 - 1) with (era * 400 + yoe) by lia.
    replace ((era * 400 + yoe) / 400) with era by (Z.div_mod_to_equations; lia).
    replace (era * 400 + yoe - era * 400) with yoe by lia.
    assert (Hdoy' : 306 ≤ doy) by (subst mp; Z.div_mod_to_equations; lia).
    lia.
Qed.

Lemma calendar_ranges tz t :
  0 ≤ hour tz t ≤ 23 ∧ 1 ≤ dayofmonth tz t ≤ 31 ∧ 1 ≤ weekofyear tz t ≤ 53 ∧
  1 ≤ month tz t ≤ 12 ∧ 1 ≤ dayofweek tz t ≤ 7.
Proof.
  unfold hour, dayofmonth, weekofyear, month, dayofweek.
  generalize (local_micros tz t). clear t. intros t.
  pose proof (civil_from_days_ranges (epoch_day t)) as [Hm Hd].
  split; [|split; [done|split; [|split; [done|]]]].
  - unfold micros_per_day. Z.div_mod_to_equations. lia.
  - cbv zeta.
    pose proof (day_of_year_range (epoch_day t - (epoch_day t + 3) mod 7 + 3)) as Hdoy.
    Z.div_mod_to_equations. lia.
  - Z.div_mod_to_equations. lia.
Qed.

(** A wall-clock time in the range of [datetime] lies in the years 1 to
    9999. *)
Lemma year_range tz t :
  min_timestamp ≤ local_micros tz t < max_timestamp → 1 ≤ year tz t ≤ 9999.
Proof.
  unfold year. generalize (local_micros tz t). clear t. intros t Ht.
  assert (Hday : -719162 ≤ epoch_day t ≤ 2932896).
  { unfold epoch_day, micros_per_day. unfold min_timestamp, max_timestamp in Ht.
    Z.div_mod_to_equations. lia. }
  destruct (civil_from_days_inv (epoch_day t))
    as (era & yoe & doy & mp & Hyoe & Hdoy & Hmp & Hmpdef & Hz & ->).
  cbn [fst snd].
  assert (Hq4 : 0 ≤ yoe / 4 ≤ 99) by (Z.div_mod_to_equations; lia).
  assert (Hq100 : 0 ≤ yoe / 100 ≤ 3) by (Z.div_mod_to_equations; lia).
  assert (Hq : yoe / 100 ≤ yoe / 4) by (Z.div_mod_to_equations; lia).
  assert (Hera : 0 ≤ era ≤ 24) by nia.
  destruct (Z.ltb_spec mp 10) as [Hlt|Hge].
  - destruct (Z.leb_spec (mp + 3) 2); [lia|].
    assert (Hdoy' : doy ≤ 305) by (subst mp; Z.div_mod_to_equations; lia).
    split; [|lia].
    destruct (decide (era = 0)) as [->|]; [|lia].
    destruct (decide (yoe = 0)) as [->|]; [|lia].
    change (0 / 4) with 0 in Hz. change (0 / 100) with 0 in Hz. lia.
  - destruct (Z.leb_spec (mp - 9) 2); [|lia].
    assert (Hdoy' : 306 ≤ doy) by (subst mp; Z.div_mod_to_equations; lia).
    split; [lia|].
    destruct (decide (era = 24)) as [->|]; [|lia].
    destruct (decide (yoe = 399)) as [->|]; [|lia].
    change (399 / 4) with 99 in Hz. change (399 / 100) with 3 in Hz. lia.
Qed.

(** The timestamp that [get_timestamp] returns shows, in the zone, the
    wall-clock time of the [datetime] it was stored from. *)
Lemma get_timestamp_Ok_range tz x t :
  get_timestamp tz x = Ok t → min_timestamp ≤ local_micros tz t < max_timestamp.
Proof.
  unfold get_timestamp. destruct x as [x|]; [|done].
  destruct (double_to_timeval (truediv x 1000)) as [sec us]. cbv zeta.
  destruct (Z.leb_spec min_timestamp (localtime tz sec * 1000000));
    destruct (Z.ltb_spec (localtime tz sec * 1000000) max_timestamp);
    destruct (Z.leb_spec 0 us); destruct (Z.ltb_spec us 1000000); cbn; try done.
  intros [= <-]. unfold local_micros.
  replace ((mktime tz (localtime tz sec) * 1000000 + us) / 1000000)
    with (mktime tz (localtime tz sec)) by (Z.div_mod_to_equations; lia).
  pose proof (mktime_localtime tz sec) as Hmk. fold (localtime tz sec) in Hmk.
  unfold min_timestamp, max_timestamp in *. lia.
Qed.

(** The civil date is the date of the day number it was computed from. *)
Lemma days_from_civil_from_days z :
  days_from_civil (civil_from_days z).1.1 (civil_from_days z).1.2 (civil_from_days z).2 = z.
Proof.
  destruct (civil_from_days_inv z)
    as (era & yoe & doy & mp & Hyoe & Hdoy & Hmp & Hmpdef & Hz & ->).
  cbn [fst snd]. unfold days_from_civil.
  destruct (Z.ltb_spec mp 10) as [Hlt|Hge].
  - destruct (Z.leb_spec (mp + 3) 2); [lia|].
    destruct (Z.ltb_spec 2 (mp + 3)); [|lia].
    replace (yoe + era * 400 + 0) with (era * 400 + yoe) by lia.
    replace ((era * 400 + yoe) / 400) with era by (Z.div_mod_to_equations; lia).
    replace (era * 400 + yoe - era * 400) with yoe by lia.
    replace (mp + 3 - 3) with mp by lia. lia.
  - destruct (Z.leb_spec (mp - 9) 2); [|lia].
    destruct (Z.ltb_spec 2 (mp - 9)); [lia|].
    replace (yoe + era * 400 + 1 - 1) with (era * 400 + yoe) by lia.
    replace ((era * 400 + yoe) / 400) with era by (Z.div_mod_to_equations; lia).
    replace (era * 400 + yoe - era * 400) with yoe by lia.
    replace (mp - 9 + 9) with mp by lia. lia.
Qed.

(** X13: every row of the time table of a run that returned has its
    calendar columns in range: [hour] from 0 to 23, [day] from 1 to 31,
    [week] from 1 to 53, [month] from 1 to 12, [year] from 1 to 9999 (the
    range of the [datetime] the conversion builds) and [weekday] from 1 to
    7. *)
Theorem time_columns_in_range config w w' times :
  main config w = (Ok (), w') →
  parquet_files w' !! path_join (OUTPUT_DATA config) "time.parquet" =
    Some {| partitionBy := ["year"; "month"]%string; contents := TimeTable times |} →
  ∀ r, r ∈ times →
    0 ≤ Time.hour r ≤ 23 ∧ 1 ≤ Time.day r ≤ 31 ∧ 1 ≤ Time.week r ≤ 53 ∧
    1 ≤ Time.month r ≤ 12 ∧ 1 ≤ Time.year r ≤ 9999 ∧ 1 ≤ Time.weekday r ≤ 7.
Proof.
  intros Hrun Htimes r Hr.
  destruct (main_tables _ _ _ Hrun)
    as (songs & recs & lts & _ & _ & Hlts & _ & _ & _ & Htimes' & _).
  rewrite Htimes' in Htimes. injection Htimes as <-.
  apply select_time_rows in Hr as (l & Hl & ->).
  destruct (with_start_time_Ok _ _ _ Hlts) as [_ Hall].
  rewrite Forall_forall in Hall. apply Hall in Hl.
  apply get_timestamp_Ok_range, year_range in Hl.
  destruct (calendar_ranges (timezone w) (LogTs.start_time l))
    as (Hh & Hd & Hw & Hm & Hwd).
  cbn [time_row Time.hour Time.day Time.week Time.month Time.year Time.weekday].
  done.
Qed.

Lemma time_columns_in_range_witness :
  main sample_config (sample_world catalog_twice events_plays []) =
    (Ok (), (main sample_config (sample_world catalog_twice events_plays [])).2) ∧
  (∀ r, r ∈ select_time utc events_plays_ts →
     0 ≤ Time.hour r ≤ 23 ∧ 1 ≤ Time.day r ≤ 31 ∧ 1 ≤ Time.week r ≤ 53 ∧
     1 ≤ Time.month r ≤ 12 ∧ 1 ≤ Time.year r ≤ 9999 ∧ 1 ≤ Time.weekday r ≤ 7).
Proof.
  split; [vm_compute; reflexivity|].
  apply (time_columns_in_range sample_config
           (sample_world catalog_twice events_plays [])
           (main sample_config (sample_world catalog_twice events_plays [])).2).
  - vm_compute. reflexivity.
  - vm_compute. reflexivity.
Defined.

(** X14: the [year], [month] and [day] columns of a time row are the
    civil date that the time zone shows at [start_time]: the day number
    of that date is the number of whole days from the epoch to the
    wall-clock time of [start_time], so the three columns and
    [start_time] name the same local day. *)
Theorem time_date_round_trip config w w' times :
  main config w = (Ok (), w') →
  parquet_files w' !! path_join (OUTPUT_DATA config) "time.parquet" =
    Some {| partitionBy := ["year"; "month"]%string; contents := TimeTable times |} →
  ∀ r, r ∈ times →
    days_from_civil (Time.year r) (Time.month r) (Time.day r) =
      local_micros (timezone w) (Time.start_time r) / micros_per_day.
Proof.
  intros Hrun Htimes r Hr.
  destruct (main_tables _ _ _ Hrun)
    as (songs & recs & lts & _ & _ & _ & _ & _ & _ & Htimes' & _).
  rewrite Htimes' in Htimes. injection Htimes as <-.
  apply select_time_rows in Hr as (l & _ & ->).
  cbn [time_row Time.year Time.month Time.day Time.start_time].
  apply days_from_civil_from_days.
Qed.

Lemma time_date_round_trip_witness :
  let w := with_timezone pacific (sample_world catalog_twice events_plays []) in
  main sample_config w = (Ok (), (main sample_config w).2) ∧
  (∀ r, r ∈ select_time pacific events_plays_ts →
     days_from_civil (Time.year r) (Time.month r) (Time.day r) =
       local_micros (timezone w) (Time.start_time r) / micros_per_day).
Proof.
  assert (Hrun : main sample_config
                   (with_timezone pacific (sample_world catalog_twice events_plays [])) =
                 (Ok (), (main sample_config
                            (with_timezone pacific
                               (sample_world catalog_twice events_plays []))).2)).
  { apply run_eta. vm_compute. reflexivity. }
  split; [exact Hrun|].
  apply (time_date_round_trip sample_config
           (with_timezone pacific (sample_world catalog_twice events_plays []))
           (main sample_config
              (with_timezone pacific (sample_world catalog_twice events_plays []))).2).
  - exact Hrun.
  - vm_compute. reflexivity.
Defined.

(** In the Pacific time zone the event of [ts = 1542241826796] is on
    November 14th, day 17849, while the instant is on day 17850 in UTC. *)
Example time_date_pacific :
  let r := time_row pacific 1542241826796000 in
  (Time.year r, Time.month r, Time.day r) = (2018, 11, 14) ∧
  days_from_civil 2018 11 14 = 17849 ∧
  local_micros pacific 1542241826796000 / micros_per_day = 17849 ∧
  1542241826796000 / micros_per_day = 17850.
Proof. vm_compute. done. Qed.
